(** * Medical report analyzer: extraction and summary pipeline

    A shallow embedding of the class [MedicalReportAnalyzer] of
    [reportanalyzer.py] and the properties of its text normaliser, finding
    extractor, per-file processing and summary builder.

    Conventions of the embedding.
    - A Python [str] is a [string]; a character is an [ascii] whose code is
      its code point, so the texts covered are those with code points below
      256.  The character predicates [isspace] and [isprintable] are
      CPython's, restricted to that range.
    - A Python [dict] whose iteration order matters (the pattern registry)
      is an association list in insertion order; the dictionaries that are
      only read by key are [gmap]s; a Python [set] is a [gset].
    - An exception is a value of [exn]; code that can raise returns
      [exn + A].
    - The libraries the class calls ([re], [nltk], [PyPDF2], [docx], the
      clock and the float formatter) are the fields of an interface; the
      theorems hold for every implementation of it, and [Re] gives an
      executable one for the pattern syntax the default registry uses. *)

From Stdlib Require Import String Ascii List NArith ZArith QArith Lia.
From Stdlib Require Import DecimalString OrdersEx.
From stdpp Require Import base option gmap strings list sorting.

Open Scope string_scope.
Open Scope list_scope.

(** ** Characters and strings *)

Definition chars (s : string) : list ascii := list_ascii_of_string s.
Definition str (l : list ascii) : string := string_of_list_ascii l.

Definition code (c : ascii) : N := N_of_ascii c.

Definition nl : ascii := "010"%char.
Definition sp : ascii := " "%char.

Definition is_nl (c : ascii) : bool := (code c =? 10)%N.

(** [str.isspace] on one character, which is also what the class [\s]
    of a [str] pattern matches: TAB..CR, FS..US, space, NEL and NBSP. *)
Definition isspace (c : ascii) : bool :=
  let n := code c in
  ((9 <=? n) && (n <=? 13) || (28 <=? n) && (n <=? 32)
   || (n =? 133) || (n =? 160))%N.

(** [str.isprintable] on one character: everything but the categories
    Other and Separator, the space excepted. *)
Definition isprintable (c : ascii) : bool :=
  let n := code c in
  ((32 <=? n) && (n <=? 126) || (161 <=? n) && (n <=? 172)
   || (174 <=? n) && (n <=? 255))%N.

(** [str.lower] on one character. *)
Definition lower_char (c : ascii) : ascii :=
  let n := code c in
  if ((65 <=? n) && (n <=? 90)
      || (192 <=? n) && (n <=? 222) && negb (n =? 215))%N
  then ascii_of_N (n + 32) else c.

Definition lower (s : string) : string := str (map lower_char (chars s)).

(** [re.sub(p+, rep, text)] for a one-character class [p]: every maximal
    run of characters of the class is replaced by [rep].  The flag tells
    whether the scan is inside a run already replaced. *)
Fixpoint sub_runs (p : ascii -> bool) (rep : ascii) (in_run : bool)
    (l : list ascii) : list ascii :=
  match l with
  | [] => []
  | c :: l' =>
      if p c then
        if in_run then sub_runs p rep true l'
        else rep :: sub_runs p rep true l'
      else c :: sub_runs p rep false l'
  end.

Fixpoint lstrip (l : list ascii) : list ascii :=
  match l with
  | [] => []
  | c :: l' => if isspace c then lstrip l' else l
  end.

Fixpoint rstrip (l : list ascii) : list ascii :=
  match l with
  | [] => []
  | c :: l' =>
      match rstrip l' with
      | [] => if isspace c then [] else [c]
      | t => c :: t
      end
  end.

(** [str.strip()] *)
Definition strip (l : list ascii) : list ascii := rstrip (lstrip l).

(** ** The text normaliser *)

(** The three rewriting steps of [_clean_text], in the order of the
    source: newline runs, then whitespace runs, then the filter that keeps
    printable characters and newlines. *)
Definition clean_chars (l : list ascii) : list ascii :=
  let l := sub_runs is_nl nl false l in
  let l := sub_runs isspace sp false l in
  let l := List.filter (fun c => isprintable c || is_nl c) l in
  strip l.

Definition _clean_text (text : string) : string :=
  match text with
  | "" => ""
  | _ => str (clean_chars (chars text))
  end.

Definition zero : ascii := "000"%char.

(** ** Python's [re], for the pattern syntax of the default registry

    The class calls [re.finditer(pattern, content, re.IGNORECASE)].  This
    module gives the part of [re] that the default registry needs, so that
    the registry of the source can be run as it is written: a parser of
    pattern strings, the backtracking matcher and the scan for successive
    matches.  The syntax covered is: literals, [.], [^], [$], the escapes
    of control characters and of punctuation, [\s] and [\S], sets of
    single characters, groups [( )] and [(?: )], alternation, and the
    quantifiers [*], [+], [?] in their greedy and lazy form.  A pattern
    that uses anything else is answered [PUnsupported]: it is outside the
    model, and no result below runs one. *)
Module Re.

Inductive item : Type :=
| IChar (c : ascii)
| ISpace
| INotSpace.

Inductive regex : Type :=
| Eps
| Lit (c : ascii)
| Dot
| Set_ (negated : bool) (items : list item)
| Bol
| Eol
| Seq (r1 r2 : regex)
| Alt (r1 r2 : regex)
| Star (greedy : bool) (r : regex)
| Group (n : nat) (r : regex).

(** [r+] is one [r] and then [r*]; [r?] is the choice between [r] and the
    empty pattern, in the order the quantifier prefers. *)
Definition Plus (greedy : bool) (r : regex) : regex := Seq r (Star greedy r).
Definition Opt (greedy : bool) (r : regex) : regex :=
  if greedy then Alt r Eps else Alt Eps r.

Inductive presult (A : Type) : Type :=
| POk (a : A)
| PError
| PUnsupported.
Arguments POk {A} a.
Arguments PError {A}.
Arguments PUnsupported {A}.

Definition pbind {A B} (x : presult A) (f : A -> presult B) : presult B :=
  match x with
  | POk a => f a
  | PError => PError
  | PUnsupported => PUnsupported
  end.

#[global] Instance presult_bind : MBind presult :=
  fun A B f x => pbind x f.

Definition is_alnum_ascii (c : ascii) : bool :=
  let n := code c in
  ((48 <=? n) && (n <=? 57) || (65 <=? n) && (n <=? 90)
   || (97 <=? n) && (n <=? 122))%N.

Definition is_quant (c : ascii) : bool :=
  (c =? "*")%char || (c =? "+")%char || (c =? "?")%char.

(** An escape sequence, after its backslash: a character, a class, or a
    sequence that is not modelled (a letter or a digit other than the
    control escapes). *)
Definition parse_escape (c : ascii) : presult item :=
  if (c =? "n")%char then POk (IChar nl)
  else if (c =? "t")%char then POk (IChar "009"%char)
  else if (c =? "r")%char then POk (IChar "013"%char)
  else if (c =? "f")%char then POk (IChar "012"%char)
  else if (c =? "v")%char then POk (IChar "011"%char)
  else if (c =? "s")%char then POk ISpace
  else if (c =? "S")%char then POk INotSpace
  else if is_alnum_ascii c then PUnsupported
  else POk (IChar c).

Definition atom_of_item (i : item) : regex :=
  match i with
  | IChar c => Lit c
  | ISpace => Set_ false [ISpace]
  | INotSpace => Set_ false [INotSpace]
  end.

(** The items of a set, after [[] or [[^]; [first] allows a leading []]
    as a literal.  Ranges are not modelled. *)
Fixpoint parse_set (first : bool) (l : list ascii)
    : presult (list item * list ascii) :=
  match l with
  | [] => PError
  | c :: l' =>
      if (c =? "]")%char && negb first then POk ([], l')
      else if (c =? "\")%char then
        match l' with
        | [] => PError
        | e :: l'' =>
            i ← parse_escape e;
            '(its, rest) ← parse_set false l'';
            POk (i :: its, rest)
        end
      else if (c =? "-")%char then
        match l' with
        | "]"%char :: _ =>
            '(its, rest) ← parse_set false l'; POk (IChar c :: its, rest)
        | _ => if first then
                 '(its, rest) ← parse_set false l'; POk (IChar c :: its, rest)
               else PUnsupported
        end
      else if (c =? "[")%char then PUnsupported
      else
        '(its, rest) ← parse_set false l'; POk (IChar c :: its, rest)
  end.

(** A quantifier after an atom.  [anchor] tells that the atom is [^] or
    [$], which cannot be repeated. *)
Definition parse_quant (anchor : bool) (r : regex) (l : list ascii)
    : presult (regex * list ascii) :=
  match l with
  | q :: l1 =>
      if is_quant q then
        if anchor then PError
        else
          let mk (g : bool) :=
            if (q =? "*")%char then Star g r
            else if (q =? "+")%char then Plus g r
            else Opt g r in
          match l1 with
          | "?"%char :: l2 =>
              match l2 with
              | q2 :: _ =>
                  if is_quant q2 then PError
                  else if (q2 =? "{")%char then PUnsupported
                  else POk (mk false, l2)
              | [] => POk (mk false, l2)
              end
          | "+"%char :: _ => PUnsupported
          | "*"%char :: _ => PError
          | "{"%char :: _ => PUnsupported
          | _ => POk (mk true, l1)
          end
      else if (q =? "{")%char then PUnsupported
      else POk (r, l)
  | [] => POk (r, l)
  end.

(** The parser proper.  [g] counts the capturing groups opened so far;
    groups are numbered by their opening parenthesis.  The fuel bounds the
    nesting of calls and is set from the length of the pattern. *)
Fixpoint parse_alt (fuel : nat) (l : list ascii) (g : nat)
    : presult (regex * list ascii * nat) :=
  match fuel with
  | 0 => PUnsupported
  | S f =>
      '(r1, l1, g1) ← parse_seq f l g;
      match l1 with
      | "|"%char :: l2 =>
          '(r2, l3, g2) ← parse_alt f l2 g1; POk (Alt r1 r2, l3, g2)
      | _ => POk (r1, l1, g1)
      end
  end
with parse_seq (fuel : nat) (l : list ascii) (g : nat)
    : presult (regex * list ascii * nat) :=
  match fuel with
  | 0 => PUnsupported
  | S f =>
      match l with
      | [] => POk (Eps, l, g)
      | c :: _ =>
          if (c =? "|")%char || (c =? ")")%char then POk (Eps, l, g)
          else
            '(r1, l1, g1) ← parse_piece f l g;
            '(r2, l2, g2) ← parse_seq f l1 g1;
            POk (match r2 with Eps => r1 | _ => Seq r1 r2 end, l2, g2)
      end
  end
with parse_piece (fuel : nat) (l : list ascii) (g : nat)
    : presult (regex * list ascii * nat) :=
  match fuel with
  | 0 => PUnsupported
  | S f =>
      match l with
      | [] => PError
      | c :: l' =>
          if (c =? "(")%char then
            match l' with
            | "?"%char :: ":"%char :: l'' =>
                '(r, l1, g1) ← parse_alt f l'' g;
                match l1 with
                | ")"%char :: l2 =>
                    '(r', l3) ← parse_quant false r l2; POk (r', l3, g1)
                | _ => PError
                end
            | "?"%char :: _ => PUnsupported
            | _ =>
                '(r, l1, g1) ← parse_alt f l' (S g);
                match l1 with
                | ")"%char :: l2 =>
                    '(r', l3) ← parse_quant false (Group (S g) r) l2;
                    POk (r', l3, g1)
                | _ => PError
                end
            end
          else if (c =? "[")%char then
            '(neg, l1) ← match l' with
                           | "^"%char :: l'' => POk (true, l'')
                           | _ => POk (false, l')
                           end;
            '(its, l2) ← parse_set true l1;
            '(r', l3) ← parse_quant false (Set_ neg its) l2;
            POk (r', l3, g)
          else if (c =? ".")%char then
            '(r', l3) ← parse_quant false Dot l'; POk (r', l3, g)
          else if (c =? "^")%char then
            '(r', l3) ← parse_quant true Bol l'; POk (r', l3, g)
          else if (c =? "$")%char then
            '(r', l3) ← parse_quant true Eol l'; POk (r', l3, g)
          else if (c =? "\")%char then
            match l' with
            | [] => PError
            | e :: l'' =>
                i ← parse_escape e;
                '(r', l3) ← parse_quant false (atom_of_item i) l'';
                POk (r', l3, g)
            end
          else if is_quant c then PError
          else if (c =? "{")%char then PUnsupported
          else
            '(r', l3) ← parse_quant false (Lit c) l'; POk (r', l3, g)
      end
  end.

Record compiled : Type := Compiled { prog : regex; groups : nat }.

(** [re.compile]: [PError] is [re.error]. *)
Definition compile (pattern : string) : presult compiled :=
  let l := chars pattern in
  '(r, rest, g) ← parse_alt (3 * length l + 3) l 0;
  match rest with
  | [] => POk (Compiled r g)
  | _ => PError
  end.

(** *** Matching

    A backtracking matcher in continuation style, with the priorities of
    [re]: the first alternative first, a greedy loop tries its body before
    the rest, a lazy loop the rest before its body.  Matching ignores
    case, as [re.IGNORECASE] asks. *)

Definition caps : Type := list (nat * list ascii).

Fixpoint cap (n : nat) (cs : caps) : option (list ascii) :=
  match cs with
  | [] => None
  | (m, t) :: cs' => if (m =? n)%nat then Some t else cap n cs'
  end.

Definition item_match (i : item) (c : ascii) : bool :=
  match i with
  | IChar a => (lower_char a =? lower_char c)%char
  | ISpace => isspace (lower_char c)
  | INotSpace => negb (isspace (lower_char c))
  end.

Definition kont : Type := nat -> list ascii -> caps -> option (nat * caps).

(** [m r pos rest cs k]: match [r] at offset [pos], where [rest] is the
    text from [pos] on, then go on with [k].  A loop does not go round
    again after an iteration that consumed nothing: it goes on with what
    follows, keeping the captures of that iteration; so it runs at most
    once per character left. *)
Fixpoint m (r : regex) (pos : nat) (rest : list ascii) (cs : caps) (k : kont)
    {struct r} : option (nat * caps) :=
  match r with
  | Eps => k pos rest cs
  | Lit a =>
      match rest with
      | c :: rest' =>
          if (lower_char a =? lower_char c)%char then k (S pos) rest' cs
          else None
      | [] => None
      end
  | Dot =>
      match rest with
      | c :: rest' => if is_nl c then None else k (S pos) rest' cs
      | [] => None
      end
  | Set_ neg its =>
      match rest with
      | c :: rest' =>
          if xorb neg (existsb (fun i => item_match i c) its)
          then k (S pos) rest' cs else None
      | [] => None
      end
  | Bol => if (pos =? 0)%nat then k pos rest cs else None
  | Eol =>
      match rest with
      | [] => k pos rest cs
      | [c] => if is_nl c then k pos rest cs else None
      | _ => None
      end
  | Seq r1 r2 => m r1 pos rest cs (fun p l c => m r2 p l c k)
  | Alt r1 r2 =>
      match m r1 pos rest cs k with
      | Some x => Some x
      | None => m r2 pos rest cs k
      end
  | Star greedy r' =>
      (fix loop (n : nat) (pos : nat) (rest : list ascii) (cs : caps)
         : option (nat * caps) :=
         match n with
         | 0 => k pos rest cs
         | S n' =>
             let again p l c :=
               if (pos <? p)%nat then loop n' p l c else k p l c in
             if greedy then
               match m r' pos rest cs again with
               | Some x => Some x
               | None => k pos rest cs
               end
             else
               match k pos rest cs with
               | Some x => Some x
               | None => m r' pos rest cs again
               end
         end) (S (length rest)) pos rest cs
  | Group n r' =>
      m r' pos rest cs (fun p l c => k p l ((n, take (p - pos) rest) :: c))
  end.

(** One attempt at offset [pos].  [must_advance] refuses the empty match:
    the scan sets it right after an empty match at the same offset. *)
Definition match_at (r : regex) (pos : nat) (rest : list ascii)
    (must_advance : bool) : option (nat * caps) :=
  m r pos rest []
    (fun p _ c => if must_advance && (p =? pos)%nat then None else Some (p, c)).

(** The matches found starting at [pos], and the offset where the last
    one ends.  Nothing starts before [last_end]; after an empty match the
    same offset is tried once more for a match that is not empty. *)
Definition matches_here (r : regex) (pos : nat) (rest : list ascii)
    (last_end : nat) : list caps * nat :=
  if (pos <? last_end)%nat then ([], last_end)
  else
    match match_at r pos rest false with
    | None => ([], last_end)
    | Some (e, c) =>
        if (e =? pos)%nat then
          match match_at r pos rest true with
          | None => ([c], pos)
          | Some (e', c') => ([c; c'], e')
          end
        else ([c], e)
    end.

(** The successive matches of [re.finditer], leftmost first and without
    overlap, each given by its captures. *)
Fixpoint scan (r : regex) (pos : nat) (rest : list ascii) (last_end : nat)
    : list caps :=
  let '(found, last_end') := matches_here r pos rest last_end in
  match rest with
  | [] => found
  | _ :: rest' => found ++ scan r (S pos) rest' last_end'
  end.

(** [match.group(1)] of each match of [finditer]: [None] is the Python
    [None] of a group that took no part in the match. *)
Definition finditer (c : compiled) (text : string) : list (option string) :=
  map (fun cs => str <$> cap 1 cs) (scan (prog c) 0 (chars text) 0).

End Re.

(** ** Exceptions *)

Inductive exn : Type :=
| ReError              (* re.error: the pattern does not compile *)
| IndexError           (* match.group(1): no such group *)
| AttributeError       (* None has no attribute strip *)
| KeyError             (* a dictionary has no such key *)
| ZeroDivisionError
| LibraryError (what : string).  (* raised inside a library call *)

Inductive result (A : Type) : Type :=
| Ok (a : A)
| Raise (e : exn).
Arguments Ok {A} a.
Arguments Raise {A} e.

#[global] Instance result_ret : MRet result := @Ok.
#[global] Instance result_bind : MBind result :=
  fun A B f x => match x with Ok a => f a | Raise e => Raise e end.
#[global] Instance result_fmap : FMap result :=
  fun A B f x => match x with Ok a => Ok (f a) | Raise e => Raise e end.

(** ** The libraries behind the class *)

(** What [match.group(1)] gives for one match: the text of the group, the
    Python [None] of a group outside the match, or [IndexError] when the
    pattern has no group at all. *)
Inductive group1 : Type :=
| GroupText (s : string)
| GroupNone
| NoSuchGroup.

Definition bytes : Type := list Byte.byte.

Class Libraries : Type := {
  (** a compiled pattern object *)
  re_pattern : Type;
  (** the compilation that [re.finditer] starts with; raises [re.error] *)
  re_compile : string -> result re_pattern;
  (** the matches of [re.finditer(pattern, text, re.IGNORECASE)], in the
      order of the scan, each seen through [group(1)] *)
  re_finditer : re_pattern -> string -> list group1;
  (** [nltk.tokenize.sent_tokenize] *)
  sent_tokenize : string -> result (list string);
  (** [bytes.decode('utf-8')] *)
  decode_utf8 : bytes -> result string;
  (** [page.extract_text()] of the pages of [PyPDF2.PdfReader] *)
  pdf_pages : bytes -> result (list string);
  (** [paragraph.text] of the paragraphs of [docx.Document] *)
  docx_paragraphs : bytes -> result (list string);
  (** the rendering [{:.1f}] of the average *)
  format_1f : Q -> string
}.

(** *** An executable instance

    [re] is the matcher of [Re].  The other libraries are run on the
    inputs where their answer is plain and answer [LibraryError] elsewhere:
    UTF-8 is decoded up to code point 255, a text without a full stop,
    question mark or exclamation mark is one sentence, and no PDF or DOCX
    reader is modelled, so every document is rejected the way a corrupt
    one is. *)

Definition byte_code (b : Byte.byte) : N := Byte.to_N b.

Fixpoint utf8 (b : bytes) : result (list ascii) :=
  match b with
  | [] => Ok []
  | x :: b' =>
      let n := byte_code x in
      if (n <? 128)%N then cs ← utf8 b'; Ok (ascii_of_N n :: cs)
      else if ((n =? 194) || (n =? 195))%N then
        match b' with
        | y :: b'' =>
            let k := byte_code y in
            if ((128 <=? k) && (k <? 192))%N then
              cs ← utf8 b''; Ok (ascii_of_N ((n - 192) * 64 + (k - 128)) :: cs)
            else Raise (LibraryError "UnicodeDecodeError")
        | [] => Raise (LibraryError "UnicodeDecodeError")
        end
      else if ((n <? 194) || (244 <? n))%N
      then Raise (LibraryError "UnicodeDecodeError")
      else Raise (LibraryError "code point outside the model")
  end.

Definition ends_sentence (c : ascii) : bool :=
  (c =? ".")%char || (c =? "!")%char || (c =? "?")%char.

(** Rounding of the quotient [n / d] to an integer, ties to even. *)
Definition round_half_even (n d : Z) : Z :=
  let q := (n / d)%Z in
  let r := (n mod d)%Z in
  if (2 * r <? d)%Z then q
  else if (d <? 2 * r)%Z then (q + 1)%Z
  else if Z.even q then q else (q + 1)%Z.

(** [n * 2^s / d] rounded, for a shift [s] of either sign. *)
Definition round_scaled (n d s : Z) : Z :=
  if (0 <=? s)%Z then round_half_even (n * 2 ^ s) d
  else round_half_even n (d * 2 ^ (- s)).

(** The rendering [{:.1f}] of the float [a / b], for [0 <= a] and
    [0 < b]: the quotient is rounded to a 53-bit mantissa [mant] at the
    binary exponent [- s], and that number to tenths. *)
Definition render_1f (q : Q) : string :=
  let a := Qnum q in
  let b := Zpos (Qden q) in
  if (a <=? 0)%Z then "0.0"
  else
    let k := (Z.log2 a - Z.log2 b)%Z in
    let s := if (round_scaled a b (52 - k) <? 2 ^ 52)%Z
             then (53 - k)%Z else (52 - k)%Z in
    let mant := round_scaled a b s in
    let tenths := round_scaled (10 * mant) 1 (- s) in
    NilEmpty.string_of_uint (N.to_uint (Z.to_N (tenths / 10))) +:+ "." +:+
    NilEmpty.string_of_uint (N.to_uint (Z.to_N (tenths mod 10))).

Definition python_libs : Libraries := {|
  re_pattern := Re.compiled;
  re_compile p :=
    match Re.compile p with
    | Re.POk c => Ok c
    | Re.PError => Raise ReError
    | Re.PUnsupported => Raise (LibraryError "pattern outside the model")
    end;
  re_finditer c text :=
    map (fun g =>
           if (Re.groups c =? 0)%nat then NoSuchGroup
           else match g with Some s => GroupText s | None => GroupNone end)
        (Re.finditer c text);
  sent_tokenize text :=
    if existsb ends_sentence (chars text)
    then Raise (LibraryError "tokenizer outside the model")
    else Ok [text];
  decode_utf8 b := str <$> utf8 b;
  pdf_pages _ := Raise (LibraryError "PdfReadError");
  docx_paragraphs _ := Raise (LibraryError "PackageNotFoundError");
  format_1f := render_1f
|}.

(** ** The analyzer *)

(** An uploaded file: its name and what [file.read()] returns. *)
Record file : Type := File { file_name : string; file_bytes : bytes }.

Record metadata_t : Type := Metadata {
  word_count : nat;
  character_count : nat;
  sentence_count : nat
}.

(** A document record, the dictionary [report] of [process_file]. *)
Record report : Type := Report {
  name : string;
  content : string;
  date : string;
  type : string;
  key_findings : gmap string (list string);
  metadata : metadata_t
}.

(** The dictionary [self.summary] once [generate_summary] has filled it. *)
Record summary_t : Type := Summary {
  total_reports : nat;
  report_types : list (string * nat);
  report_dates : list string;
  summary_findings : gmap string (list string);
  total_word_count : nat;
  avg_sentences_per_report : Q
}.

(** The object state.  [summary] is [None] for the empty dictionary. *)
Record analyzer : Type := Analyzer {
  reports : list report;
  summary : option summary_t;
  findings_patterns : list (string * string)
}.

Definition categories : list string :=
  ["diagnoses"; "medications"; "vitals"; "lab_results"; "recommendations"].

Definition default_patterns : list (string * string) :=
  [("diagnoses",
    "(?:diagnosis|assessment|impression|diagnosed with)[:\s](.*?)(?:\n|$)");
   ("medications",
    "(?:medication|drug|prescription|prescribed)[:\s](.*?)(?:\n|$)");
   ("vitals",
    "(?:vital|measurement|blood pressure|temperature|pulse|height|weight)[:\s](.*?)(?:\n|$)");
   ("lab_results",
    "(?:lab|laboratory|test|result|blood work)[:\s](.*?)(?:\n|$)");
   ("recommendations",
    "(?:recommendation|plan|follow up|advised)[:\s](.*?)(?:\n|$)")].

(** [__init__] *)
Definition new_analyzer : analyzer :=
  {| reports := []; summary := None; findings_patterns := default_patterns |}.

(** [clear_data] *)
Definition clear_data (self : analyzer) : analyzer :=
  {| reports := []; summary := None;
     findings_patterns := findings_patterns self |}.

(** [len(text.split())]: the number of maximal runs of characters that
    are not whitespace.  [in_word] tells whether the scan is inside one. *)
Fixpoint count_words (in_word : bool) (l : list ascii) : nat :=
  match l with
  | [] => 0
  | c :: l' =>
      if isspace c then count_words false l'
      else if in_word then count_words true l'
      else S (count_words true l')
  end.

(** ["\n".join(parts)] *)
Fixpoint join_lines (parts : list string) : string :=
  match parts with
  | [] => ""
  | [p] => p
  | p :: ps => p +:+ String nl (join_lines ps)
  end.

Definition nonempty (s : string) : bool :=
  match s with "" => false | _ => true end.

(** *** [Path(file.name).suffix], for a POSIX path *)

(** The components of a path: the pieces between slashes, the empty ones
    and the single dots dropped.  [cur] is the piece being read,
    reversed. *)
Fixpoint path_parts (cur : list ascii) (l : list ascii) : list (list ascii) :=
  let close :=
    match rev cur with
    | [] => []
    | ["."%char] => []
    | p => [p]
    end in
  match l with
  | [] => close
  | c :: l' =>
      if (c =? "/")%char then close ++ path_parts [] l'
      else path_parts (c :: cur) l'
  end.

Definition path_name (p : string) : list ascii :=
  default [] (last (path_parts [] (chars p))).

(** [name.rfind('.')] as the number of characters from the last dot
    on, when there is a dot. *)
Fixpoint after_last_dot (l : list ascii) : option (list ascii) :=
  match l with
  | [] => None
  | c :: l' =>
      match after_last_dot l' with
      | Some t => Some t
      | None => if (c =? ".")%char then Some l else None
      end
  end.

(** The suffix is the last dot and what follows, unless the dot is the
    first or the last character of the name. *)
Definition suffix (p : string) : string :=
  let n := path_name p in
  match after_last_dot n with
  | Some t =>
      if (length t <? length n)%nat && (1 <? length t)%nat then str t else ""
  | None => ""
  end.

Section Analyzer.

Context {L : Libraries}.

(** *** Text extraction *)

Definition _extract_pdf_content (f : file) : result string :=
  pages ← pdf_pages (file_bytes f);
  Ok (join_lines (List.filter nonempty pages)).

Definition _extract_docx_content (f : file) : result string :=
  paragraphs ← docx_paragraphs (file_bytes f);
  Ok (join_lines (List.filter nonempty paragraphs)).

(** *** The finding extractor *)

(** The dictionary [findings] as [extract_key_findings] creates it. *)
Definition no_findings : gmap string (list string) :=
  <["recommendations" := []]> (<["lab_results" := []]> (<["vitals" := []]>
    (<["medications" := []]> (<["diagnoses" := []]> ∅)))).

(** The loop [for match in matches], with [found] the list
    [findings[category]] so far. *)
Fixpoint collect (matches : list group1) (found : list string)
    : result (list string) :=
  match matches with
  | [] => Ok found
  | mt :: rest =>
      match mt with
      | NoSuchGroup => Raise IndexError
      | GroupNone => Raise AttributeError
      | GroupText g =>
          let text := strip (chars g) in
          (* [if text and len(text) > 2] *)
          if (2 <? length text)%nat then
            let text := strip (sub_runs isspace sp false text) in
            collect rest (found ++ [str text])
          else collect rest found
      end
  end.

(** The loop [for category, pattern in self.findings_patterns.items()]. *)
Fixpoint scan_patterns (patterns : list (string * string)) (content : string)
    (findings : gmap string (list string))
    : result (gmap string (list string)) :=
  match patterns with
  | [] => Ok findings
  | (category, pattern) :: rest =>
      p ← re_compile pattern;
      found ← collect (re_finditer p content) [];
      scan_patterns rest content (<[category := found]> findings)
  end.

Definition extract_key_findings (self : analyzer) (content : string)
    : result (gmap string (list string)) :=
  if nonempty content
  then scan_patterns (findings_patterns self) content no_findings
  else Ok no_findings.

(** *** Processing one file *)

(** What the user is shown: [st.warning] for a format that is not
    supported, [st.error] for an exception caught while processing. *)
Inductive notice : Type :=
| UnsupportedFormat (file_ext : string)
| ProcessingError (file_name : string) (e : exn)
| FailedToProcess (file_name : string).

(** The branch on the extension: the text of the file, or [None] on
    the branch that warns and returns. *)
Definition read_content (file_ext : string) (f : file)
    : result (option string) :=
  if String.eqb file_ext ".pdf" then Some <$> _extract_pdf_content f
  else if String.eqb file_ext ".txt" then Some <$> decode_utf8 (file_bytes f)
  else if String.eqb file_ext ".doc" || String.eqb file_ext ".docx"
  then Some <$> _extract_docx_content f
  else Ok None.

(** The dictionary [report], built from the text that was read.  [now]
    is [datetime.now().isoformat()]. *)
Definition make_report (self : analyzer) (now : string) (f : file)
    (file_ext : string) (raw : string) : result report :=
  let content := _clean_text raw in
  findings ← extract_key_findings self content;
  sentences ← (if nonempty content
               then length <$> sent_tokenize content else Ok 0);
  Ok {| name := file_name f;
        content := content;
        date := now;
        type := file_ext;
        key_findings := findings;
        metadata := {| word_count := count_words false (chars content);
                       character_count := String.length content;
                       sentence_count := sentences |} |}.

(** [process_file]: the new state of the object, what is shown, and the
    boolean returned.  The [try] catches every exception of the body. *)
Definition process_file (now : string) (f : file) (self : analyzer)
    : analyzer * list notice * bool :=
  let file_ext := lower (suffix (file_name f)) in
  let attempt :=
    text ← read_content file_ext f;
    match text with
    | None => Ok None
    | Some raw => Some <$> make_report self now f file_ext raw
    end in
  match attempt with
  | Ok (Some r) =>
      ({| reports := reports self ++ [r];
          summary := summary self;
          findings_patterns := findings_patterns self |}, [], true)
  | Ok None => (self, [UnsupportedFormat file_ext], false)
  | Raise e => (self, [ProcessingError (file_name f) e], false)
  end.

(** The loop of the upload page over the files of a batch, each with the
    time it is processed at: the state after the batch, everything shown,
    and the names of the files that were processed. *)
Fixpoint process_files (batch : list (string * file)) (self : analyzer)
    : analyzer * list notice * list string :=
  match batch with
  | [] => (self, [], [])
  | (now, f) :: rest =>
      let '(self1, shown1, ok) := process_file now f self in
      let '(self2, shown2, done) := process_files rest self1 in
      if ok then (self2, shown1 ++ shown2, file_name f :: done)
      else (self2, shown1 ++ FailedToProcess (file_name f) :: shown2, done)
  end.

(** *** The summary builder *)

(** [type_counts[file_type] = type_counts.get(file_type, 0) + 1] on a
    dictionary kept in insertion order. *)
Fixpoint count_type (file_type : string) (type_counts : list (string * nat))
    : list (string * nat) :=
  match type_counts with
  | [] => [(file_type, 1)]
  | (t, n) :: rest =>
      if String.eqb t file_type then (t, S n) :: rest
      else (t, n) :: count_type file_type rest
  end.

Definition _count_report_types (self : analyzer) : list (string * nat) :=
  fold_left (fun type_counts r => count_type (type r) type_counts)
            (reports self) [].

Definition _extract_report_dates (self : analyzer) : list string :=
  map date (reports self).

(** [a / b] on integers.  The quotient is kept exact: the float of the
    source is the binary64 number nearest to it, and [format_1f] is the
    place where the rounding is seen. *)
Definition truediv (a b : nat) : result Q :=
  match b with
  | 0 => Raise ZeroDivisionError
  | S _ => Ok (Z.of_nat a # Pos.of_nat b)
  end.

(** The five empty sets of [summary['key_findings']]. *)
Definition no_sets : gmap string (gset string) :=
  <["recommendations" := ∅]> (<["lab_results" := ∅]> (<["vitals" := ∅]>
    (<["medications" := ∅]> (<["diagnoses" := ∅]> ∅)))).

(** [summary['key_findings'][category].update(items)] *)
Definition update_category (sets : gmap string (gset string))
    (entry : string * list string) : result (gmap string (gset string)) :=
  match sets !! entry.1 with
  | Some s => Ok (<[entry.1 := s ∪ list_to_set entry.2]> sets)
  | None => Raise KeyError
  end.

(** The loop over the items of one record's findings. *)
Fixpoint update_sets (sets : gmap string (gset string))
    (entries : list (string * list string))
    : result (gmap string (gset string)) :=
  match entries with
  | [] => Ok sets
  | entry :: rest =>
      sets' ← update_category sets entry; update_sets sets' rest
  end.

(** The loop over the records. *)
Fixpoint gather (sets : gmap string (gset string)) (rs : list report)
    : result (gmap string (gset string)) :=
  match rs with
  | [] => Ok sets
  | r :: rest =>
      sets' ← update_sets sets (map_to_list (key_findings r));
      gather sets' rest
  end.

(** The order of [sorted] on strings: by code point, the first
    difference deciding, a proper prefix first. *)
Definition string_le (a b : string) : Prop := String.leb a b = true.

#[global] Instance string_le_dec (a b : string) : Decision (string_le a b).
Proof. unfold string_le. apply _. Defined.

(** [sorted(list(s))] *)
Definition sorted (s : gset string) : list string :=
  merge_sort string_le (elements s).

Definition nat_str (n : nat) : string :=
  NilEmpty.string_of_uint (Nat.to_uint n).

(** [', '.join(parts)] *)
Fixpoint join_comma (parts : list string) : string :=
  match parts with
  | [] => ""
  | [p] => p
  | p :: ps => p +:+ ", " +:+ join_comma ps
  end.

Definition _format_list (items : list string) : string :=
  match items with
  | [] => "- No findings in this category"
  | _ => join_lines (map (fun item => "- " +:+ item) items)
  end.

(** [format_summary]; [stamp] is the text of
    [datetime.now().strftime(...)]. *)
Definition format_summary (stamp : string) (self : analyzer) : string :=
  match summary self with
  | None => "No summary available."
  | Some s =>
      let findings c := _format_list (default [] (summary_findings s !! c)) in
      join_lines
        [ "# Medical Report Summary";
          "Generated: " +:+ stamp;
          "";
          "## Overview";
          "- **Total Reports**: " +:+ nat_str (total_reports s);
          "- **File Types**: " +:+
            join_comma (map (fun '(ext, count) =>
                               ext +:+ " (" +:+ nat_str count +:+ ")")
                            (report_types s));
          "- **Total Words**: " +:+ nat_str (total_word_count s);
          "- **Avg. Sentences/Report**: " +:+
            format_1f (avg_sentences_per_report s);
          "";
          "## Key Findings";
          "";
          "### Diagnoses:";
          findings "diagnoses";
          "";
          "### Medications:";
          findings "medications";
          "";
          "### Vital Signs:";
          findings "vitals";
          "";
          "### Lab Results:";
          findings "lab_results";
          "";
          "### Recommendations:";
          findings "recommendations";
          "";
          "## Important Note";
          "The information above is automatically extracted and may not be complete or accurate.";
          "Please verify all findings with healthcare professionals.";
          "        " ]
  end.

Definition no_reports_text : string := "No reports have been processed yet.".

(** [generate_summary]: the new state of the object and the text
    returned, or the exception raised. *)
Definition generate_summary (stamp : string) (self : analyzer)
    : result (analyzer * string) :=
  match reports self with
  | [] => Ok (self, no_reports_text)
  | _ =>
      let words := list_sum (map (fun r => word_count (metadata r))
                                 (reports self)) in
      let sentences := list_sum (map (fun r => sentence_count (metadata r))
                                     (reports self)) in
      avg ← truediv sentences (length (reports self));
      sets ← gather no_sets (reports self);
      let self' :=
        {| reports := reports self;
           summary := Some {| total_reports := length (reports self);
                              report_types := _count_report_types self;
                              report_dates := _extract_report_dates self;
                              summary_findings := sorted <$> sets;
                              total_word_count := words;
                              avg_sentences_per_report := avg |};
           findings_patterns := findings_patterns self |} in
      Ok (self', format_summary stamp self')
  end.

End Analyzer.

(** ** The vocabulary of the properties *)

(** Every whitespace character of the list is a space. *)
Definition only_spaces (l : list ascii) : Prop :=
  Forall (fun c => isspace c = true -> c = sp) l.

(** No two neighbours are both whitespace. *)
Fixpoint single_spaced (l : list ascii) : Prop :=
  match l with
  | [] => True
  | c :: l' =>
      (isspace c = true -> match l' with
                           | [] => True
                           | d :: _ => isspace d = false
                           end)
      /\ single_spaced l'
  end.

(** The list does not begin with whitespace. *)
Definition starts_clean (l : list ascii) : Prop :=
  match l with
  | [] => True
  | c :: _ => isspace c = false
  end.

(** The characters the filter of [_clean_text] never has to remove. *)
Definition plain (c : ascii) : Prop :=
  isprintable c = true \/ isspace c = true.

(** *** The candidates of a category, in the words of the specification

    Each captured text is trimmed; a candidate shorter than three
    characters is discarded; a survivor has its runs of whitespace
    collapsed to one space and is trimmed; the survivors are kept in the
    order of the scan, duplicates included.  Trimming and collapsing are
    said here without the functions of the code: a text is trimmed by
    taking the whitespace off its two ends, and it is collapsed and
    trimmed by joining its words with single spaces. *)

(** The list does not end with whitespace. *)
Fixpoint ends_clean (l : list ascii) : Prop :=
  match l with
  | [] => True
  | [c] => isspace c = false
  | _ :: l' => ends_clean l'
  end.

(** [t] is [l] trimmed: [l] without the whitespace at its two ends. *)
Definition trim_of (t l : list ascii) : Prop :=
  exists before after,
    l = before ++ t ++ after
    /\ Forall (fun c => isspace c = true) before
    /\ Forall (fun c => isspace c = true) after
    /\ starts_clean t /\ ends_clean t.

(** The list begins inside a word. *)
Definition starts_word (l : list ascii) : bool :=
  match l with
  | c :: _ => negb (isspace c)
  | [] => false
  end.

(** A character put in front of the first word. *)
Definition push_char (c : ascii) (ws : list (list ascii))
    : list (list ascii) :=
  match ws with
  | w :: ws' => (c :: w) :: ws'
  | [] => [[c]]
  end.

(** The words of a text: its maximal runs of characters that are not
    whitespace, in order. *)
Fixpoint words (l : list ascii) : list (list ascii) :=
  match l with
  | [] => []
  | c :: l' =>
      if isspace c then words l'
      else if starts_word l' then push_char c (words l')
      else [c] :: words l'
  end.

(** Words joined by single spaces. *)
Fixpoint unwords (ws : list (list ascii)) : list ascii :=
  match ws with
  | [] => []
  | [w] => w
  | w :: ws' => w ++ sp :: unwords ws'
  end.

(** The trimmed form of a captured text, as the loop computes it. *)
Definition trimmed (captured : string) : list ascii := strip (chars captured).

Definition survives (candidate : list ascii) : bool :=
  (3 <=? length candidate)%nat.

(** What the loop appends for a candidate that survives. *)
Definition collapsed (candidate : list ascii) : string :=
  str (strip (sub_runs isspace sp false candidate)).

(** The sequence of a category: of the captured texts, in their order,
    those whose trimmed form has three characters or more, each as its
    words joined by single spaces. *)
Definition candidates (captured : list string) : list string :=
  map (fun g => str (unwords (words (chars g))))
      (List.filter (fun g => survives (trimmed g)) captured).


(** The extensions [process_file] has a branch for. *)
Definition supported : list string := [".pdf"; ".txt"; ".doc"; ".docx"].

(** The strict order of [sorted]. *)
Definition string_lt (a b : string) : Prop := String.ltb a b = true.

(** What the records hold for a category: the texts of that category in
    any of them. *)
Definition found_in (rs : list report) (category : string) (x : string)
    : Prop :=
  exists r items,
    r ∈ rs /\ key_findings r !! category = Some items /\ x ∈ items.

(** What the sets hold for a category. *)
Definition holds (sets : gmap string (gset string)) (category : string)
    (x : string) : Prop :=
  exists s, sets !! category = Some s /\ x ∈ s.

(** Every record of the object has the five categories as the keys of
    its findings. *)
Definition five_keyed (self : analyzer) : Prop :=
  forall r, r ∈ reports self ->
    dom (key_findings r) = list_to_set categories.

(** [type_counts.get(file_type, 0)] *)
Fixpoint type_count (file_type : string) (type_counts : list (string * nat))
    : nat :=
  match type_counts with
  | [] => 0
  | (t, n) :: rest =>
      if String.eqb t file_type then n else type_count file_type rest
  end.

(** The number of records of a type. *)
Definition records_of (file_type : string) (rs : list report) : nat :=
  length (List.filter (fun r => String.eqb (type r) file_type) rs).

(** The lookups of a result at some keys, for reading a mapping that was
    computed. *)
Definition lookups {A} (r : result (gmap string A)) (keys : list string)
    : result (list (option A)) :=
  fm ← r; Ok (map (fun k => fm !! k) keys).

(** ** Sample inputs *)

(** The text on which idempotence breaks: a character that is neither
    printable nor whitespace, between two spaces. *)
Definition spaced_control : string :=
  String "a" (String sp (String zero (String sp "b"))).

(** The scenario of the specification. *)
Definition scenario_text : string :=
  "Diagnosis: Hypertension" +:+
  String nl ("Medication: Lisinopril 10mg" +:+ String nl "").

(** A registry with a sixth key, as a configuration file can load it. *)
Definition allergy_patterns : list (string * string) :=
  [("allergies", "(?:allergy|allergic to)[:\s](.*?)(?:\n|$)")].

Definition allergy_analyzer : analyzer :=
  {| reports := []; summary := None; findings_patterns := allergy_patterns |}.

(** A text with the same diagnosis on two lines and a diagnosis of two
    characters on a third. *)
Definition repeated_text : string :=
  "Diagnosis:   Flu  (type  A) " +:+
  String nl ("Diagnosis: Flu (type A)" +:+ String nl "Diagnosis: no").



Definition flu_file : file :=
  File "visit.TXT" (list_byte_of_string "Diagnosis: Flu").

Definition spreadsheet : file := File "report.xls" (list_byte_of_string "a,b").

(** Two records whose diagnoses overlap. *)
Definition flu_report : report :=
  {| name := "a.txt"; content := "Diagnosis: Flu";
     date := "2025-02-26T10:00:00"; type := ".txt";
     key_findings := <["diagnoses" := ["Flu"]]> no_findings;
     metadata := {| word_count := 2; character_count := 14;
                    sentence_count := 1 |} |}.

Definition flu_cold_report : report :=
  {| name := "b.txt"; content := "Diagnosis: Flu Diagnosis: Cold";
     date := "2025-02-26T10:00:01"; type := ".txt";
     key_findings := <["diagnoses" := ["Flu"; "Cold"]]> no_findings;
     metadata := {| word_count := 4; character_count := 30;
                    sentence_count := 1 |} |}.

Definition two_reports : analyzer :=
  {| reports := [flu_report; flu_cold_report]; summary := None;
     findings_patterns := default_patterns |}.

(** The libraries of an installation where the data of the tokenizer
    could not be downloaded: [sent_tokenize] raises [LookupError]. *)
Definition without_punkt : Libraries := {|
  re_pattern := Re.compiled;
  re_compile := @re_compile python_libs;
  re_finditer := @re_finditer python_libs;
  sent_tokenize _ := Raise (LibraryError "LookupError");
  decode_utf8 := @decode_utf8 python_libs;
  pdf_pages := @pdf_pages python_libs;
  docx_paragraphs := @docx_paragraphs python_libs;
  format_1f := render_1f
|}.

(** The libraries in front of a scanned document of two pages: the PDF
    reader finds the pages and no text on them. *)
Definition scanned_pages : Libraries := {|
  re_pattern := Re.compiled;
  re_compile := @re_compile python_libs;
  re_finditer := @re_finditer python_libs;
  sent_tokenize := @sent_tokenize python_libs;
  decode_utf8 := @decode_utf8 python_libs;
  pdf_pages _ := Ok [""; ""];
  docx_paragraphs := @docx_paragraphs python_libs;
  format_1f := render_1f
|}.

Definition scan_file : file := File "scan.PDF" (list_byte_of_string "%PDF-1.4").

Definition allergy_file : file :=
  File "intake.txt" (list_byte_of_string "Allergy: penicillin").

(** The patterns whose group 1 takes part in every match: the group is
    on every path through the pattern. *)
Fixpoint always1 (r : Re.regex) : bool :=
  match r with
  | Re.Group n r' => (n =? 1)%nat || always1 r'
  | Re.Seq r1 r2 => always1 r1 || always1 r2
  | Re.Alt r1 r2 => always1 r1 && always1 r2
  | _ => false
  end.

(** The captures hold a text for group 1. *)
Definition has1 (cs : Re.caps) : Prop := is_Some (Re.cap 1 cs).

(** The loop of a starred pattern, with its fuel as an argument: [body]
    is the matcher of the pattern under the star. *)
Definition star_loop (greedy : bool)
    (body : nat -> list ascii -> Re.caps -> Re.kont -> option (nat * Re.caps))
    (k : Re.kont)
    : nat -> nat -> list ascii -> Re.caps -> option (nat * Re.caps) :=
  fix loop (n : nat) (pos : nat) (rest : list ascii) (cs : Re.caps) :=
    match n with
    | 0 => k pos rest cs
    | S n' =>
        let again p l c :=
          if (pos <? p)%nat then loop n' p l c else k p l c in
        if greedy then
          match body pos rest cs again with
          | Some x => Some x
          | None => k pos rest cs
          end
        else
          match k pos rest cs with
          | Some x => Some x
          | None => body pos rest cs again
          end
    end.

(** * Properties *)

(** ** The normaliser *)

Lemma chars_str (l : list ascii) : chars (str l) = l.
Proof. apply list_ascii_of_string_of_list_ascii. Qed.

Lemma str_chars (s : string) : str (chars s) = s.
Proof. apply string_of_list_ascii_of_string. Qed.

Lemma isspace_sp : isspace sp = true.
Proof. reflexivity. Qed.

Lemma is_nl_isspace (c : ascii) : is_nl c = true -> isspace c = true.
Proof.
  unfold is_nl, isspace. intros H%N.eqb_eq. rewrite H. reflexivity.
Qed.

Lemma is_nl_eq (c : ascii) : is_nl c = true -> c = nl.
Proof.
  unfold is_nl, code. intros H%N.eqb_eq.
  rewrite <- (ascii_N_embedding c), H. reflexivity.
Qed.

(** The space is the only character that is both printable and
    whitespace. *)
Lemma printable_space (c : ascii) :
  isprintable c = true -> isspace c = true -> c = sp.
Proof.
  destruct c as [[] [] [] [] [] [] [] []]; vm_compute; congruence.
Qed.

Lemma sub_runs_only_spaces (b : bool) (l : list ascii) :
  only_spaces (sub_runs isspace sp b l).
Proof.
  revert b. induction l as [|c l IH]; intros b; simpl.
  - constructor.
  - destruct (isspace c) eqn:E.
    + destruct b; [apply IH|]. constructor; [done | apply IH].
    + constructor; [congruence | apply IH].
Qed.

Lemma sub_runs_single_spaced (b : bool) (l : list ascii) :
  single_spaced (sub_runs isspace sp b l)
  /\ (b = true -> starts_clean (sub_runs isspace sp b l)).
Proof.
  revert b. induction l as [|c l IH]; intros b; simpl.
  - done.
  - destruct (isspace c) eqn:E.
    + destruct b.
      * apply IH.
      * split; [|done]. simpl. split; [|apply IH].
        intros _. destruct (IH true) as [_ Hs]. specialize (Hs eq_refl).
        destruct (sub_runs isspace sp true l); done.
    + split; [|done]. simpl. split; [congruence | apply IH].
Qed.

(** A text that is already single-spaced is left as it is by the
    whitespace pass. *)
Lemma sub_runs_fixed (b : bool) (l : list ascii) :
  only_spaces l -> single_spaced l -> (b = true -> starts_clean l) ->
  sub_runs isspace sp b l = l.
Proof.
  revert b. induction l as [|c l IH]; intros b Ho Hs Hb; simpl; [done|].
  inversion Ho as [|? ? Hc Ho']; subst. destruct Hs as [Hn Hs].
  destruct (isspace c) eqn:E.
  - destruct b.
    + specialize (Hb eq_refl). simpl in Hb. congruence.
    + rewrite (Hc eq_refl). f_equal. apply IH; [done..|].
      intros _. specialize (Hn eq_refl). destruct l; done.
  - f_equal. apply IH; [done..|]. discriminate.
Qed.

Lemma sub_runs_nl_fixed (b : bool) (l : list ascii) :
  Forall (fun c => is_nl c = false) l -> sub_runs is_nl nl b l = l.
Proof.
  revert b. induction l as [|c l IH]; intros b H; simpl; [done|].
  inversion H as [|? ? Hc H']; subst. rewrite Hc. f_equal. by apply IH.
Qed.

Lemma only_spaces_no_nl (l : list ascii) :
  only_spaces l -> Forall (fun c => is_nl c = false) l.
Proof.
  intros Ho. eapply Forall_impl; [exact Ho|].
  intros c H. simpl in H. destruct (is_nl c) eqn:E; [|done].
  pose proof (is_nl_isspace c E) as Hs.
  pose proof (is_nl_eq c E) as ->. specialize (H Hs). discriminate.
Qed.

(** *** Stripping *)

Lemma lstrip_suffix (l : list ascii) : exists h, l = h ++ lstrip l.
Proof.
  induction l as [|c l [h IH]]; simpl.
  - by exists [].
  - destruct (isspace c); [|by exists []].
    exists (c :: h). simpl. by f_equal.
Qed.

Lemma rstrip_prefix (l : list ascii) : exists t, l = rstrip l ++ t.
Proof.
  induction l as [|c l [t IH]]; simpl.
  - by exists [].
  - destruct (rstrip l) eqn:E.
    + destruct (isspace c).
      * exists (c :: l). done.
      * exists t. simpl in IH. simpl. by f_equal.
    + exists t. simpl. f_equal. exact IH.
Qed.

Lemma lstrip_starts_clean (l : list ascii) : starts_clean (lstrip l).
Proof.
  induction l as [|c l IH]; simpl; [done|].
  destruct (isspace c) eqn:E; [done|]. simpl. done.
Qed.

Lemma lstrip_fixed (l : list ascii) : starts_clean l -> lstrip l = l.
Proof. destruct l as [|c l]; simpl; [done|]. by intros ->. Qed.

Lemma rstrip_starts_clean (l : list ascii) :
  starts_clean l -> starts_clean (rstrip l).
Proof.
  destruct l as [|c l]; simpl; [done|]. intros E.
  destruct (rstrip l); [rewrite E|]; done.
Qed.

Lemma rstrip_idemp (l : list ascii) : rstrip (rstrip l) = rstrip l.
Proof.
  induction l as [|c l IH]; simpl; [done|].
  destruct (rstrip l) as [|d t] eqn:E.
  - destruct (isspace c) eqn:Ec; simpl; [done|]. by rewrite Ec.
  - change (rstrip (c :: d :: t)) with
      (match rstrip (d :: t) with
       | [] => if isspace c then [] else [c]
       | u => c :: u
       end).
    by rewrite IH.
Qed.

Lemma strip_fixed (l : list ascii) : strip (strip l) = strip l.
Proof.
  unfold strip.
  rewrite (lstrip_fixed (rstrip (lstrip l)))
    by apply rstrip_starts_clean, lstrip_starts_clean.
  apply rstrip_idemp.
Qed.

Lemma Forall_app_r {A} (P : A -> Prop) (h t : list A) :
  Forall P (h ++ t) -> Forall P t.
Proof. rewrite Forall_app. tauto. Qed.

Lemma Forall_app_l {A} (P : A -> Prop) (h t : list A) :
  Forall P (h ++ t) -> Forall P h.
Proof. rewrite Forall_app. tauto. Qed.

Lemma strip_Forall (P : ascii -> Prop) (l : list ascii) :
  Forall P l -> Forall P (strip l).
Proof.
  intros H. unfold strip.
  destruct (lstrip_suffix l) as [h Hh].
  destruct (rstrip_prefix (lstrip l)) as [t Ht].
  rewrite Hh in H. apply Forall_app_r in H.
  rewrite Ht in H. by apply Forall_app_l in H.
Qed.

Lemma single_spaced_app_r (h t : list ascii) :
  single_spaced (h ++ t) -> single_spaced t.
Proof. induction h as [|c h IH]; simpl; [done|]. intros [_ H]. auto. Qed.

Lemma single_spaced_app_l (h t : list ascii) :
  single_spaced (h ++ t) -> single_spaced h.
Proof.
  induction h as [|c h IH]; simpl; [done|]. intros [Hc H]. split; [|auto].
  intros E. specialize (Hc E). destruct h; done.
Qed.

Lemma strip_single_spaced (l : list ascii) :
  single_spaced l -> single_spaced (strip l).
Proof.
  intros H. unfold strip.
  destruct (lstrip_suffix l) as [h Hh].
  destruct (rstrip_prefix (lstrip l)) as [t Ht].
  rewrite Hh in H. apply single_spaced_app_r in H.
  rewrite Ht in H. by apply single_spaced_app_l in H.
Qed.

(** *** The passes of [_clean_text] *)

Lemma sub_runs_Forall (P : ascii -> Prop) (p : ascii -> bool) (rep : ascii)
    (b : bool) (l : list ascii) :
  P rep -> Forall P l -> Forall P (sub_runs p rep b l).
Proof.
  intros Hrep. revert b. induction l as [|c l IH]; intros b H; simpl; [done|].
  apply Forall_cons in H as [Hc H]. destruct (p c), b; auto.
Qed.

Lemma filter_Forall (P : ascii -> Prop) (keep : ascii -> bool)
    (l : list ascii) :
  Forall P l -> Forall P (List.filter keep l).
Proof.
  induction 1 as [|c l Hc H IH]; simpl; [done|]. destruct (keep c); auto.
Qed.

Lemma filter_fixed (keep : ascii -> bool) (l : list ascii) :
  Forall (fun c => keep c = true) l -> List.filter keep l = l.
Proof.
  induction 1 as [|c l Hc H IH]; simpl; [done|]. rewrite Hc. by f_equal.
Qed.

Lemma sub_runs_printable (b : bool) (l : list ascii) :
  Forall plain l ->
  Forall (fun c => isprintable c = true) (sub_runs isspace sp b l).
Proof.
  revert b. induction l as [|c l IH]; intros b H; simpl; [done|].
  inversion H as [|? ? Hc H']; subst.
  destruct (isspace c) eqn:E.
  - destruct b; [auto|]. constructor; [reflexivity | auto].
  - constructor; [|auto]. destruct Hc; congruence.
Qed.

Lemma clean_text_chars (text : string) :
  _clean_text text = str (clean_chars (chars text)).
Proof. destruct text; reflexivity. Qed.

Lemma clean_chars_only_spaces (l : list ascii) :
  only_spaces (clean_chars l).
Proof.
  unfold clean_chars. apply strip_Forall, filter_Forall.
  apply sub_runs_only_spaces.
Qed.

(** The output has no newline, whatever the input. *)
Lemma clean_text_no_newline (text : string) :
  Forall (fun c => c <> nl) (chars (_clean_text text)).
Proof.
  rewrite clean_text_chars, chars_str.
  eapply Forall_impl; [apply clean_chars_only_spaces|].
  intros c H ->. specialize (H eq_refl). discriminate.
Qed.

(** The output is trimmed, whatever the input. *)
Lemma clean_text_trimmed (text : string) :
  strip (chars (_clean_text text)) = chars (_clean_text text).
Proof.
  rewrite clean_text_chars, chars_str. unfold clean_chars. apply strip_fixed.
Qed.

(** On a text of printable characters and whitespace the filter removes
    nothing, and the output is the whitespace pass, stripped. *)
Lemma clean_chars_plain (l : list ascii) :
  Forall plain l ->
  clean_chars l = strip (sub_runs isspace sp false (sub_runs is_nl nl false l)).
Proof.
  intros H. unfold clean_chars. f_equal. apply filter_fixed.
  eapply Forall_impl.
  - apply sub_runs_printable, sub_runs_Forall; [|exact H].
    right. reflexivity.
  - intros c Hc. simpl in Hc. by rewrite Hc.
Qed.

Lemma clean_text_single_spaced (text : string) :
  Forall plain (chars text) -> single_spaced (chars (_clean_text text)).
Proof.
  intros H. rewrite clean_text_chars, chars_str, clean_chars_plain by done.
  apply strip_single_spaced, sub_runs_single_spaced.
Qed.

(** A text that is printable, single-spaced and trimmed is a fixed point
    of the normaliser. *)
Lemma clean_chars_fixed (l : list ascii) :
  Forall (fun c => isprintable c = true) l -> only_spaces l ->
  single_spaced l -> strip l = l ->
  clean_chars l = l.
Proof.
  intros Hp Ho Hs Ht. unfold clean_chars.
  rewrite (sub_runs_nl_fixed false l) by by apply only_spaces_no_nl.
  rewrite (sub_runs_fixed false l) by done.
  rewrite filter_fixed; [done|].
  eapply Forall_impl; [exact Hp|]. intros c Hc. simpl in Hc. by rewrite Hc.
Qed.

(** Idempotence holds on the texts of printable characters and
    whitespace. *)
Lemma clean_text_idempotent_plain (text : string) :
  Forall plain (chars text) ->
  _clean_text (_clean_text text) = _clean_text text.
Proof.
  intros H. rewrite (clean_text_chars (_clean_text text)).
  rewrite (clean_text_chars text), chars_str. f_equal.
  apply clean_chars_fixed.
  - rewrite clean_chars_plain by done.
    apply strip_Forall, sub_runs_printable, sub_runs_Forall; [|exact H].
    right. reflexivity.
  - apply clean_chars_only_spaces.
  - rewrite clean_chars_plain by done.
    apply strip_single_spaced, sub_runs_single_spaced.
  - unfold clean_chars. apply strip_fixed.
Qed.

(** C4, at the failing input: normalising ["a \x00 b"] gives ["a  b"],
    and normalising that gives ["a b"]; the normaliser is not idempotent
    there. *)
Theorem clean_text_twice_differs :
  _clean_text spaced_control = "a  b"
  /\ _clean_text (_clean_text spaced_control) = "a b"
  /\ _clean_text (_clean_text spaced_control) <> _clean_text spaced_control.
Proof. vm_compute. repeat split; congruence. Qed.

(** C5, at the failing input: the output for ["a \x00 b"] has two
    consecutive spaces (position 1 and 2), although it has no newline and
    is trimmed. *)
Theorem clean_text_doubled_space :
  chars (_clean_text spaced_control) !! 1 = Some sp
  /\ chars (_clean_text spaced_control) !! 2 = Some sp
  /\ ~ single_spaced (chars (_clean_text spaced_control)).
Proof.
  vm_compute. repeat split. intros [_ [H _]]. specialize (H eq_refl).
  discriminate.
Qed.

(** ** Trimming and collapsing *)

Lemma lstrip_cut (l : list ascii) :
  exists h, l = h ++ lstrip l /\ Forall (fun c => isspace c = true) h.
Proof.
  induction l as [|c l (h & IH & Hh)]; simpl.
  - by exists [].
  - destruct (isspace c) eqn:E; [|by exists []].
    exists (c :: h). simpl. split; [by f_equal | by constructor].
Qed.

Lemma rstrip_nil (l : list ascii) :
  rstrip l = [] -> Forall (fun c => isspace c = true) l.
Proof.
  induction l as [|c l IH]; simpl; [constructor|].
  destruct (rstrip l) as [|d t]; [|discriminate].
  destruct (isspace c) eqn:E; [|discriminate]. intros _. constructor; auto.
Qed.

Lemma rstrip_cut (l : list ascii) :
  exists t, l = rstrip l ++ t /\ Forall (fun c => isspace c = true) t.
Proof.
  induction l as [|c l (t & IH & Ht)]; simpl.
  - by exists [].
  - destruct (rstrip l) as [|d u] eqn:E.
    + destruct (isspace c) eqn:Ec.
      * exists (c :: l). split; [done|]. constructor; [done|].
        by apply rstrip_nil.
      * exists t. simpl in IH. split; [simpl; by f_equal | done].
    + exists t. split; [simpl; f_equal; exact IH | done].
Qed.

Lemma rstrip_head (l t : list ascii) (d : ascii) :
  rstrip l = d :: t -> exists l', l = d :: l'.
Proof.
  destruct l as [|c l]; simpl; [discriminate|].
  destruct (rstrip l); [destruct (isspace c); [discriminate|]|];
    intros [= <- _]; by eexists.
Qed.

Lemma rstrip_ends (l : list ascii) : ends_clean (rstrip l).
Proof.
  induction l as [|c l IH]; simpl; [done|].
  destruct (rstrip l) as [|d t] eqn:E.
  - by destruct (isspace c) eqn:Ec.
  - exact IH.
Qed.

(** [strip] trims, in the sense of the specification. *)
Lemma strip_trims (l : list ascii) : trim_of (strip l) l.
Proof.
  unfold strip. destruct (lstrip_cut l) as (h & Hh & Hws).
  destruct (rstrip_cut (lstrip l)) as (t & Ht & Hwt).
  exists h, t. split; [by rewrite <- Ht|]. split; [done|]. split; [done|].
  split; [apply rstrip_starts_clean, lstrip_starts_clean | apply rstrip_ends].
Qed.

Lemma words_spaces (l : list ascii) :
  Forall (fun c => isspace c = true) l ->
  words l = [] /\ starts_word l = false.
Proof.
  induction 1 as [|c l Hc _ [IH _]]; simpl; [done|].
  by rewrite Hc, IH.
Qed.

Lemma starts_word_sub_runs (l : list ascii) :
  starts_word (sub_runs isspace sp false l) = starts_word l.
Proof.
  destruct l as [|c l]; simpl; [done|].
  destruct (isspace c) eqn:E; simpl; [done | by rewrite E].
Qed.

(** Collapsing the runs of whitespace keeps the words. *)
Lemma words_sub_runs (b : bool) (l : list ascii) :
  words (sub_runs isspace sp b l) = words l.
Proof.
  revert b. induction l as [|c l IH]; intros b; simpl; [done|].
  destruct (isspace c) eqn:E.
  - destruct b; [apply IH|]. simpl. apply IH.
  - simpl. by rewrite E, starts_word_sub_runs, IH.
Qed.

Lemma words_lstrip (l : list ascii) : words (lstrip l) = words l.
Proof.
  induction l as [|c l IH]; simpl; [done|].
  destruct (isspace c) eqn:E; [exact IH|]. simpl. by rewrite E.
Qed.

Lemma words_rstrip (l : list ascii) : words (rstrip l) = words l.
Proof.
  induction l as [|c l IH]; [done|].
  simpl rstrip. destruct (rstrip l) as [|d t] eqn:E.
  - destruct (words_spaces l (rstrip_nil l E)) as [Hw Hs].
    destruct (isspace c) eqn:Ec; simpl; rewrite Ec, ?Hs, Hw; done.
  - destruct (rstrip_head _ _ _ E) as [l' ->].
    change (words (c :: d :: t))
      with (if isspace c then words (d :: t)
            else if starts_word (d :: t) then push_char c (words (d :: t))
                 else [c] :: words (d :: t)).
    change (words (c :: d :: l'))
      with (if isspace c then words (d :: l')
            else if starts_word (d :: l') then push_char c (words (d :: l'))
                 else [c] :: words (d :: l')).
    by rewrite IH.
Qed.

(** Trimming keeps the words. *)
Lemma words_strip (l : list ascii) : words (strip l) = words l.
Proof. unfold strip. by rewrite words_rstrip, words_lstrip. Qed.

Lemma unwords_push (c : ascii) (ws : list (list ascii)) :
  ws <> [] -> unwords (push_char c ws) = c :: unwords ws.
Proof. destruct ws as [|w [|w' ws]]; done. Qed.

(** A text that is single-spaced and does not end with whitespace is its
    words joined by single spaces, after the space it may begin with. *)
Lemma unwords_words (t : list ascii) :
  only_spaces t -> single_spaced t -> ends_clean t ->
  match t with
  | [] => True
  | c :: _ =>
      words t <> []
      /\ (if isspace c then sp :: unwords (words t) else unwords (words t)) = t
  end.
Proof.
  induction t as [|c t IH]; [done|]. intros Ho Hs He.
  apply Forall_cons in Ho as [Hc Ho]. destruct Hs as [Hn Hs].
  destruct t as [|d t].
  - simpl in He. simpl. by rewrite He.
  - specialize (IH Ho Hs He) as [Hw IH].
    change (words (c :: d :: t))
      with (if isspace c then words (d :: t)
            else if starts_word (d :: t) then push_char c (words (d :: t))
                 else [c] :: words (d :: t)).
    destruct (isspace c) eqn:Ec.
    + rewrite (Hn eq_refl) in IH. rewrite (Hc eq_refl), IH. done.
    + simpl starts_word. destruct (isspace d) eqn:Ed; simpl negb.
      * split; [done|]. destruct (words (d :: t)) as [|w ws]; [done|].
        simpl in IH |- *. by rewrite <- IH.
      * split; [by destruct (words (d :: t))|].
        rewrite unwords_push by done. by rewrite IH.
Qed.

(** Collapsing the runs of whitespace of a text and trimming it gives
    the words of the text joined by single spaces. *)
Lemma collapse_joins_words (t : list ascii) :
  strip (sub_runs isspace sp false t) = unwords (words t).
Proof.
  rewrite <- (words_sub_runs false t), <- words_strip.
  set (r := strip (sub_runs isspace sp false t)).
  assert (Hs : starts_clean r)
    by apply rstrip_starts_clean, lstrip_starts_clean.
  pose proof (unwords_words r) as H.
  destruct r as [|c r'] eqn:Er; [done|].
  simpl in Hs. rewrite Hs in H. symmetry. apply H.
  - rewrite <- Er. apply strip_Forall, sub_runs_only_spaces.
  - rewrite <- Er. apply strip_single_spaced, sub_runs_single_spaced.
  - rewrite <- Er. apply rstrip_ends.
Qed.

(** What the loop appends for a captured text is the words of the text
    joined by single spaces. *)
Lemma collapsed_trimmed (captured : string) :
  collapsed (trimmed captured) = str (unwords (words (chars captured))).
Proof.
  unfold collapsed, trimmed. by rewrite collapse_joins_words, words_strip.
Qed.

(** ** The finding extractor *)

Lemma lookups_Ok {A} (r : result (gmap string A)) (keys : list string)
    (vals : list (option A)) :
  lookups r keys = Ok vals ->
  exists fm, r = Ok fm /\ map (fun k => fm !! k) keys = vals.
Proof.
  destruct r as [fm|e]; [|discriminate]. intros H. exists fm.
  split; [done|]. by injection H.
Qed.

Lemma no_findings_dom : dom no_findings = list_to_set categories.
Proof.
  unfold no_findings, categories. rewrite !dom_insert_L, dom_empty_L.
  set_solver.
Qed.

Lemma no_findings_lookup (c : string) :
  c ∈ categories -> no_findings !! c = Some [].
Proof.
  unfold categories. rewrite !elem_of_cons, elem_of_nil.
  intros [->|[->|[->|[->|[->|[]]]]]]; reflexivity.
Qed.

Section Extractor.

Context {L : Libraries}.

Lemma collect_texts (captured : list string) (found : list string) :
  collect (map GroupText captured) found = Ok (found ++ candidates captured).
Proof.
  revert found. induction captured as [|g gs IH]; intros found.
  - simpl. by rewrite app_nil_r.
  - unfold candidates. simpl.
    change (survives (trimmed g))
      with (2 <? length (strip (chars g)))%nat.
    destruct (2 <? length (strip (chars g)))%nat eqn:E.
    + rewrite IH. simpl. rewrite <- app_assoc. simpl.
      by rewrite <- collapsed_trimmed.
    + apply IH.
Qed.

(** The inner loop returns only when every match has a text for its
    group 1. *)
Lemma collect_returns (matches : list group1) (found result : list string) :
  collect matches found = Ok result ->
  exists captured, matches = map GroupText captured.
Proof.
  revert found. induction matches as [|mt ms IH]; intros found H.
  - by exists [].
  - destruct mt as [g| |]; simpl in H; try discriminate.
    destruct (2 <? length (strip (chars g)))%nat;
      apply IH in H as [captured ->]; by exists (g :: captured).
Qed.

Lemma scan_patterns_dom (patterns : list (string * string))
    (content : string) (start fm : gmap string (list string)) :
  scan_patterns patterns content start = Ok fm ->
  dom fm = dom start ∪ list_to_set patterns.*1.
Proof.
  revert start. induction patterns as [|[category pattern] rest IH];
    intros start H; simpl in *.
  - injection H as <-. set_solver.
  - destruct (re_compile pattern) as [p|]; simpl in H; [|discriminate].
    destruct (collect (re_finditer p content) []) as [found|]; simpl in H;
      [|discriminate].
    apply IH in H. rewrite H, dom_insert_L. set_solver.
Qed.

Lemma scan_patterns_other (patterns : list (string * string))
    (content : string) (start fm : gmap string (list string)) (c : string) :
  c ∉ patterns.*1 ->
  scan_patterns patterns content start = Ok fm ->
  fm !! c = start !! c.
Proof.
  revert start. induction patterns as [|[category pattern] rest IH];
    intros start Hc H; simpl in *.
  - by injection H as <-.
  - destruct (re_compile pattern) as [p|]; simpl in H; [|discriminate].
    destruct (collect (re_finditer p content) []) as [found|]; simpl in H;
      [|discriminate].
    apply not_elem_of_cons in Hc as [Hne Hc].
    rewrite (IH _ Hc H). by apply lookup_insert_ne.
Qed.

Lemma scan_patterns_entry (patterns : list (string * string))
    (content : string) (start fm : gmap string (list string))
    (category pattern : string) :
  NoDup patterns.*1 ->
  (category, pattern) ∈ patterns ->
  scan_patterns patterns content start = Ok fm ->
  exists p found,
    re_compile pattern = Ok p
    /\ collect (re_finditer p content) [] = Ok found
    /\ fm !! category = Some found.
Proof.
  revert start. induction patterns as [|[k v] rest IH];
    intros start Hnd Hin H; simpl in *.
  - by apply elem_of_nil in Hin.
  - apply NoDup_cons in Hnd as [Hk Hnd].
    destruct (re_compile v) as [p|] eqn:Ec; simpl in H; [|discriminate].
    destruct (collect (re_finditer p content) []) as [found|] eqn:Ef;
      simpl in H; [|discriminate].
    apply elem_of_cons in Hin as [Heq|Hin].
    + simplify_eq. exists p, found. repeat split; [done..|].
      erewrite scan_patterns_other; [|exact Hk|exact H].
      apply lookup_insert_eq.
    + by eapply IH.
Qed.

(** The extractor raises only on a text that is not empty and a registry
    that is not empty. *)
Lemma extract_key_findings_raises (self : analyzer) (content : string)
    (e : exn) :
  extract_key_findings self content = Raise e ->
  content <> "" /\ findings_patterns self <> [].
Proof.
  unfold extract_key_findings. destruct content; simpl; [discriminate|].
  destruct (findings_patterns self); simpl; [discriminate|]. done.
Qed.

End Extractor.

(** *** The scenario of the specification *)

Lemma scenario_lookups :
  lookups (extract_key_findings (L := python_libs) new_analyzer
             (_clean_text scenario_text)) ["diagnoses"; "medications"]
  = Ok [Some ["Hypertension Medication: Lisinopril 10mg"];
        Some ["Lisinopril 10mg"]].
Proof. vm_compute. reflexivity. Qed.

(** C1, at the input of the scenario: the normaliser turns the two
    lines into one, so the diagnosis pattern runs to the end of the text
    and the diagnosis found is ["Hypertension Medication: Lisinopril
    10mg"], not ["Hypertension"]; the medication is as the scenario
    says. *)
Theorem scenario_findings_flattened :
  _clean_text scenario_text
  = "Diagnosis: Hypertension Medication: Lisinopril 10mg"
  /\ exists fm,
       extract_key_findings (L := python_libs) new_analyzer
         (_clean_text scenario_text) = Ok fm
       /\ fm !! "diagnoses"
          = Some ["Hypertension Medication: Lisinopril 10mg"]
       /\ fm !! "medications" = Some ["Lisinopril 10mg"]
       /\ fm !! "diagnoses" <> Some ["Hypertension"].
Proof.
  split; [vm_compute; reflexivity|].
  destruct (lookups_Ok _ _ _ scenario_lookups) as (fm & Hfm & Hl).
  exists fm. injection Hl as Hd Hm. rewrite Hd, Hm.
  repeat split; [done|]. intros H. by injection H.
Qed.

(** On the text as it was written, with its newlines, the same patterns
    find what the scenario expects. *)
Lemma scenario_findings_with_newlines :
  lookups (extract_key_findings (L := python_libs) new_analyzer
             scenario_text) ["diagnoses"; "medications"]
  = Ok [Some ["Hypertension"]; Some ["Lisinopril 10mg"]].
Proof. vm_compute. reflexivity. Qed.

(** *** The keys of the result *)

Section Keys.

Context {L : Libraries}.

(** C2, as amended: when the extractor returns, the keys of its mapping
    are the five category names together with the keys of the registry
    that was scanned, hence exactly the five names for a registry whose
    keys are among them; with an empty text or an empty registry it
    returns, and every category is present and empty. *)
Theorem extract_key_findings_keys (self : analyzer) (content : string) :
  match extract_key_findings self content with
  | Ok fm =>
      dom fm = list_to_set categories
               ∪ (if nonempty content
                  then list_to_set (findings_patterns self).*1 else ∅)
      /\ ((forall c, c ∈ (findings_patterns self).*1 -> c ∈ categories) ->
          dom fm = list_to_set categories)
      /\ (content = "" \/ findings_patterns self = [] ->
          forall c, c ∈ categories -> fm !! c = Some [])
  | Raise _ => content <> "" /\ findings_patterns self <> []
  end.
Proof.
  destruct (extract_key_findings self content) as [fm|e] eqn:E;
    [|by eapply extract_key_findings_raises].
  unfold extract_key_findings in E.
  destruct (nonempty content) eqn:En.
  - pose proof (scan_patterns_dom _ _ _ _ E) as Hd.
    rewrite no_findings_dom in Hd. split; [done|]. split.
    + intros Hk. rewrite Hd. apply set_eq. intros c.
      rewrite elem_of_union, !elem_of_list_to_set. naive_solver.
    + intros [->|Hp]; [discriminate|]. rewrite Hp in E. simpl in E.
      injection E as <-. apply no_findings_lookup.
  - injection E as <-. rewrite no_findings_dom. split; [set_solver|].
    split; [done|]. intros _. apply no_findings_lookup.
Qed.

End Keys.

Lemma allergy_lookups :
  lookups (extract_key_findings (L := python_libs) allergy_analyzer
             "Allergy: penicillin") ["allergies"]
  = Ok [Some ["penicillin"]].
Proof. vm_compute. reflexivity. Qed.

(** C2 as stated fails: with a registry whose one key is [allergies] the
    mapping returned has that key besides the five category names. *)
Lemma extract_key_findings_sixth_key :
  exists fm,
    extract_key_findings (L := python_libs) allergy_analyzer
      "Allergy: penicillin" = Ok fm
    /\ fm !! "allergies" = Some ["penicillin"]
    /\ dom fm <> list_to_set categories.
Proof.
  destruct (lookups_Ok _ _ _ allergy_lookups) as (fm & Hfm & Hl).
  exists fm. injection Hl as Ha. repeat split; [done..|].
  intros Hd.
  assert (Hin : "allergies" ∈ (list_to_set categories : gset string)).
  { rewrite <- Hd. apply elem_of_dom. by eexists. }
  apply elem_of_list_to_set in Hin. unfold categories in Hin.
  rewrite !elem_of_cons, elem_of_nil in Hin.
  destruct Hin as [?|[?|[?|[?|[?|[]]]]]]; discriminate.
Qed.

Lemma flu_lookups :
  lookups (extract_key_findings (L := python_libs) new_analyzer
             "Diagnosis: Flu") ["diagnoses"]
  = Ok [Some ["Flu"]].
Proof. vm_compute. reflexivity. Qed.

Lemma extract_key_findings_keys_witness :
  exists fm,
    extract_key_findings (L := python_libs) new_analyzer "Diagnosis: Flu"
    = Ok fm
    /\ dom fm = list_to_set categories.
Proof.
  destruct (lookups_Ok _ _ _ flu_lookups) as (fm & Hfm & _).
  exists fm. split; [exact Hfm|].
  pose proof (extract_key_findings_keys (L := python_libs) new_analyzer
                "Diagnosis: Flu") as H.
  rewrite Hfm in H. destruct H as (_ & H & _). apply H.
  intros c Hc. cbn in Hc. unfold categories.
  rewrite !elem_of_cons in Hc. rewrite !elem_of_cons. tauto.
Defined.

(** *** The candidates of a category *)

Lemma sub_runs_last (b : bool) (t : list ascii) (d : ascii) :
  isspace d = false ->
  exists u, sub_runs isspace sp b (t ++ [d]) = u ++ [d].
Proof.
  intros Hd. revert b. induction t as [|x t IH]; intros b; simpl.
  - rewrite Hd. by exists [].
  - destruct (isspace x).
    + destruct b.
      * apply IH.
      * destruct (IH true) as [u ->]. by exists (sp :: u).
    + destruct (IH false) as [u ->]. by exists (x :: u).
Qed.

Lemma rstrip_keeps_last (u : list ascii) (d : ascii) :
  isspace d = false -> rstrip (u ++ [d]) = u ++ [d].
Proof.
  intros Hd. induction u as [|x u IH]; simpl.
  - by rewrite Hd.
  - rewrite IH. by destruct u.
Qed.

Lemma rstrip_ends_clean (l : list ascii) :
  rstrip l = [] \/ exists u d, rstrip l = u ++ [d] /\ isspace d = false.
Proof.
  induction l as [|c l IH]; simpl; [by left|].
  destruct (rstrip l) as [|x t] eqn:E.
  - destruct (isspace c) eqn:Ec; [by left|]. right. by exists [], c.
  - right. destruct IH as [|(u & d & Hu & Hd)]; [done|].
    exists (c :: u), d. by rewrite Hu.
Qed.

(** A survivor stays at least three characters long when its runs of
    whitespace are collapsed, and it comes out trimmed and
    single-spaced. *)
Lemma collapsed_normal (captured : string) :
  survives (trimmed captured) = true ->
  let t := chars (collapsed (trimmed captured)) in
  3 <= length t /\ strip t = t /\ single_spaced t /\ only_spaces t.
Proof.
  unfold survives, collapsed, trimmed. intros Hlen%Nat.leb_le. simpl.
  rewrite chars_str. repeat split.
  - set (t := strip (chars captured)) in *.
    assert (Hs : starts_clean t)
      by apply rstrip_starts_clean, lstrip_starts_clean.
    destruct (rstrip_ends_clean (lstrip (chars captured)))
      as [Hnil|(u & d & Hu & Hd)].
    { unfold t, strip in Hlen. rewrite Hnil in Hlen. simpl in Hlen. lia. }
    fold (strip (chars captured)) in Hu. fold t in Hu.
    destruct u as [|c [|x u]];
      [rewrite Hu in Hlen; simpl in Hlen; lia
      |rewrite Hu in Hlen; simpl in Hlen; lia|].
    rewrite Hu in Hs |- *. simpl in Hs. simpl. rewrite Hs.
    destruct (sub_runs_last (isspace x) u d Hd) as [v Hv].
    assert (Hw : exists y,
               sub_runs isspace sp false (x :: u ++ [d]) = y :: v ++ [d]).
    { simpl. destruct (isspace x); rewrite Hv; eauto. }
    destruct Hw as [y Hy]. simpl in Hy. rewrite Hy.
    unfold strip. simpl lstrip. rewrite Hs.
    change (c :: y :: v ++ [d]) with ((c :: y :: v) ++ [d]).
    rewrite rstrip_keeps_last by done. rewrite length_app. simpl. lia.
  - apply strip_fixed.
  - apply strip_single_spaced, sub_runs_single_spaced.
  - apply strip_Forall, sub_runs_only_spaces.
Qed.

Lemma candidates_normal (captured : list string) (t : string) :
  t ∈ candidates captured ->
  3 <= length (chars t) /\ strip (chars t) = chars t
  /\ single_spaced (chars t) /\ only_spaces (chars t).
Proof.
  unfold candidates. intros Hin.
  apply list_elem_of_In, in_map_iff in Hin as (g & <- & Hg).
  apply filter_In in Hg as [_ Hs].
  rewrite <- collapsed_trimmed. by apply collapsed_normal.
Qed.

Section Candidates.

Context {L : Libraries}.

(** C6: for a text that is not empty and a registry entry
    [(category, pattern)], when the extractor returns, the pattern
    compiled, every match of the scan gave a text for its group 1, and the
    sequence of the category is made of these texts the way the
    specification says: of the captured texts, in the order of the scan
    and with the duplicates, those whose trimmed form has three characters
    or more, each as its words joined by single spaces.  The trimmed form
    is the text without the whitespace at its two ends; and every member
    of the sequence has three characters or more, neither begins nor ends
    with whitespace, and has no whitespace but single spaces.  On the
    empty text nothing is scanned and the mapping is the initial one. *)
Theorem extract_key_findings_candidates (self : analyzer) (content : string)
    (fm : gmap string (list string)) (category pattern : string) :
  NoDup (findings_patterns self).*1 ->
  (category, pattern) ∈ findings_patterns self ->
  extract_key_findings self content = Ok fm ->
  (content <> "" ->
   exists p captured,
     re_compile pattern = Ok p
     /\ re_finditer p content = map GroupText captured
     /\ fm !! category = Some (candidates captured)
     /\ (forall g, trim_of (trimmed g) (chars g))
     /\ (forall s, s ∈ candidates captured ->
           3 <= String.length s
           /\ starts_clean (chars s) /\ ends_clean (chars s)
           /\ single_spaced (chars s) /\ only_spaces (chars s)))
  /\ (content = "" -> fm = no_findings).
Proof.
  intros Hnd Hin H. unfold extract_key_findings in H. split.
  - intros Hne. destruct content; [done|]. simpl in H.
    destruct (scan_patterns_entry _ _ _ _ _ _ Hnd Hin H)
      as (p & found & Hp & Hf & Hl).
    destruct (collect_returns _ _ _ Hf) as [captured Hc].
    exists p, captured. split; [done|]. split; [done|]. split.
    { rewrite Hc, collect_texts in Hf. simpl in Hf. by injection Hf as <-. }
    split; [intros g; apply strip_trims|].
    intros s Hs.
    destruct (candidates_normal _ _ Hs) as (Hlen & Hfix & Hsingle & Honly).
    split; [|split; [|split; [|done]]].
    + clear -Hlen. revert Hlen. generalize 3.
      induction s as [|c s IH]; intros n; simpl; [done|].
      destruct n as [|n]; [lia|]. specialize (IH n). lia.
    + rewrite <- Hfix. apply rstrip_starts_clean, lstrip_starts_clean.
    + rewrite <- Hfix. apply rstrip_ends.
  - intros ->. simpl in H. by injection H as <-.
Qed.

End Candidates.

Lemma repeated_lookups :
  lookups (extract_key_findings (L := python_libs) new_analyzer
             repeated_text) ["diagnoses"]
  = Ok [Some ["Flu (type A)"; "Flu (type A)"]].
Proof. vm_compute. reflexivity. Qed.

Lemma extract_key_findings_candidates_witness :
  exists fm p captured,
    extract_key_findings (L := python_libs) new_analyzer repeated_text = Ok fm
    /\ re_compile (Libraries := python_libs)
         "(?:diagnosis|assessment|impression|diagnosed with)[:\s](.*?)(?:\n|$)"
       = Ok p
    /\ re_finditer p repeated_text = map GroupText captured
    /\ fm !! "diagnoses" = Some (candidates captured)
    /\ (forall s, s ∈ candidates captured ->
          3 <= String.length s
          /\ starts_clean (chars s) /\ ends_clean (chars s)
          /\ single_spaced (chars s) /\ only_spaces (chars s)).
Proof.
  destruct (lookups_Ok _ _ _ repeated_lookups) as (fm & Hfm & _).
  exists fm.
  destruct (extract_key_findings_candidates (L := python_libs) new_analyzer
              repeated_text fm "diagnoses"
              "(?:diagnosis|assessment|impression|diagnosed with)[:\s](.*?)(?:\n|$)")
    as [H _].
  - apply (bool_decide_unpack _). vm_compute. exact I.
  - apply elem_of_cons. left. reflexivity.
  - exact Hfm.
  - destruct H as (p & captured & Hp & Hc & Hl & _ & Hn); [discriminate|].
    exists p, captured. auto.
Defined.

(** ** Processing files *)

Section Processing.

Context {L : Libraries}.

Lemma read_content_unsupported (file_ext : string) (f : file) :
  file_ext ∉ supported -> read_content file_ext f = Ok None.
Proof.
  unfold supported. rewrite !not_elem_of_cons.
  intros (Hpdf & Htxt & Hdoc & Hdocx & _). unfold read_content.
  apply String.eqb_neq in Hpdf, Htxt, Hdoc, Hdocx.
  by rewrite Hpdf, Htxt, Hdoc, Hdocx.
Qed.

(** On a supported extension the branch taken reads the file: the
    result is a text or an exception, never the warning. *)
Lemma read_content_supported (file_ext : string) (f : file) :
  file_ext ∈ supported -> read_content file_ext f <> Ok None.
Proof.
  unfold supported. rewrite !elem_of_cons, elem_of_nil.
  unfold read_content, _extract_pdf_content, _extract_docx_content.
  intros [->|[->|[->|[->|[]]]]]; simpl.
  - by destruct (pdf_pages (file_bytes f)).
  - by destruct (decode_utf8 (file_bytes f)).
  - by destruct (docx_paragraphs (file_bytes f)).
  - by destruct (docx_paragraphs (file_bytes f)).
Qed.

(** The three ways [process_file] ends. *)
Lemma process_file_cases (now : string) (f : file) (self : analyzer) :
  (exists r,
     process_file now f self
     = ({| reports := reports self ++ [r]; summary := summary self;
           findings_patterns := findings_patterns self |}, [], true)
     /\ name r = file_name f /\ date r = now
     /\ type r = lower (suffix (file_name f)))
  \/ process_file now f self
     = (self, [UnsupportedFormat (lower (suffix (file_name f)))], false)
  \/ exists e,
       process_file now f self
       = (self, [ProcessingError (file_name f) e], false).
Proof.
  unfold process_file.
  destruct (read_content (lower (suffix (file_name f))) f) as [[raw|]|e];
    simpl; [|by right; left|by right; right; exists e].
  unfold make_report.
  destruct (extract_key_findings self (_clean_text raw)) as [fm|e]; simpl;
    [|by right; right; exists e].
  destruct (if nonempty (_clean_text raw)
            then length <$> sent_tokenize (_clean_text raw) else Ok 0)
    as [n|e]; simpl; [|by right; right; exists e].
  left. eexists. split; [reflexivity|]. done.
Qed.

(** C10: whatever the file and the state, [process_file] either returns
    [True] and the records are the old ones followed by one new record,
    which carries the name of the file, or returns [False] and the object
    is as it was.  The registry and the stored summary are never
    touched. *)
Theorem process_file_appends_iff_success (now : string) (f : file)
    (self : analyzer) :
  let '(self', _, ok) := process_file now f self in
  findings_patterns self' = findings_patterns self
  /\ summary self' = summary self
  /\ ((ok = true
       /\ exists r, reports self' = reports self ++ [r]
                    /\ name r = file_name f)
      \/ (ok = false /\ self' = self)).
Proof.
  destruct (process_file_cases now f self)
    as [(r & -> & Hn & _)|[->|[e ->]]]; simpl.
  - repeat split; left; split; [done|]. by exists r.
  - repeat split; right; done.
  - repeat split; right; done.
Qed.

(** C8: a file whose extension, in lower case, is none of [.pdf], [.txt],
    [.doc], [.docx] gets the warning for its format and [False], and the
    object is left as it was; nothing of the file is read, no library is
    called.  In a batch the remaining files are processed from the same
    state, and the only trace of the file is what is shown.  The
    extensions [.doc] and [.docx] take the same branch. *)
Theorem process_file_unsupported (now : string) (f : file) (self : analyzer)
    (rest : list (string * file)) :
  lower (suffix (file_name f)) ∉ supported ->
  process_file now f self
  = (self, [UnsupportedFormat (lower (suffix (file_name f)))], false)
  /\ process_files ((now, f) :: rest) self
     = (let '(self', shown, done) := process_files rest self in
        (self',
         UnsupportedFormat (lower (suffix (file_name f)))
         :: FailedToProcess (file_name f) :: shown,
         done))
  /\ forall g : file, read_content ".doc" g = read_content ".docx" g.
Proof.
  intros Hext.
  assert (Hp : process_file now f self
               = (self, [UnsupportedFormat (lower (suffix (file_name f)))],
                  false)).
  { unfold process_file. by rewrite (read_content_unsupported _ _ Hext). }
  split; [exact Hp|]. split; [|done].
  simpl. rewrite Hp. by destruct (process_files rest self) as [[? ?] ?].
Qed.




End Processing.




Lemma process_file_unsupported_witness :
  process_file (L := python_libs) "2025-02-26T10:00:00" spreadsheet
    new_analyzer
  = (new_analyzer, [UnsupportedFormat ".xls"], false).
Proof.
  apply (process_file_unsupported (L := python_libs) "2025-02-26T10:00:00"
           spreadsheet new_analyzer []).
  vm_compute. intros H. repeat (apply elem_of_cons in H as [H|H];
    [discriminate|]). by apply elem_of_nil in H.
Defined.

(** ** The summary builder *)

(** *** The order of [sorted] *)

Lemma string_le_cases (a b : string) :
  string_le a b <-> a = b \/ string_lt a b.
Proof.
  unfold string_le, string_lt, String.leb, String.ltb.
  destruct (String.compare a b) eqn:E.
  - apply String.compare_eq_iff in E. naive_solver.
  - naive_solver.
  - split; [discriminate|]. intros [->|]; [|discriminate].
    pose proof (String.compare_antisym b b) as H. rewrite E in H.
    discriminate.
Qed.

Lemma string_lt_compare (a b : string) :
  string_lt a b <-> String_as_OT.lt a b.
Proof.
  unfold string_lt, String.ltb, String_as_OT.lt.
  change (String_as_OT.compare a b) with (String.compare a b).
  destruct (String.compare a b); split; intros H; done.
Qed.

#[global] Instance string_lt_strict : StrictOrder string_lt.
Proof.
  destruct String_as_OT.lt_strorder as [Hi Ht]. split.
  - intros a H%string_lt_compare. by apply (Hi a).
  - intros a b c H1%string_lt_compare H2%string_lt_compare.
    apply string_lt_compare. by apply (Ht a b c).
Qed.

#[global] Instance string_le_trans : Transitive string_le.
Proof.
  intros a b c [->|H1]%string_le_cases [->|H2]%string_le_cases;
    apply string_le_cases; auto.
  right. by transitivity b.
Qed.

#[global] Instance string_le_total : Total string_le.
Proof. intros a b. apply String.leb_total. Qed.

Lemma strict_of_nodup (l : list string) :
  StronglySorted string_le l -> NoDup l -> StronglySorted string_lt l.
Proof.
  induction 1 as [|x l Hs IH Hx]; intros Hnd; constructor.
  - apply IH. by apply NoDup_cons in Hnd as [_ ?].
  - apply NoDup_cons in Hnd as [Hnot _].
    apply Forall_forall. intros y Hy.
    rewrite Forall_forall in Hx. specialize (Hx y Hy).
    apply string_le_cases in Hx as [->|]; done.
Qed.

(** [sorted] lists the members of the set, each once, in strictly
    ascending order. *)
Lemma sorted_spec (s : gset string) :
  StronglySorted string_lt (sorted s) /\ forall x, x ∈ sorted s <-> x ∈ s.
Proof.
  unfold sorted. split.
  - apply strict_of_nodup.
    + apply StronglySorted_merge_sort; apply _.
    + rewrite merge_sort_Permutation. apply NoDup_elements.
  - intros x. rewrite merge_sort_Permutation. apply elem_of_elements.
Qed.

(** *** The union of the findings *)

Lemma no_sets_dom : dom no_sets = list_to_set categories.
Proof.
  unfold no_sets, categories. rewrite !dom_insert_L, dom_empty_L.
  apply set_eq. intros c. rewrite !elem_of_union, !elem_of_list_to_set.
  rewrite !elem_of_singleton, !elem_of_cons, elem_of_nil, elem_of_empty.
  tauto.
Qed.

Lemma no_sets_holds (c x : string) : ~ holds no_sets c x.
Proof.
  intros (s & Hs & Hx). unfold no_sets in Hs.
  repeat (apply lookup_insert_Some in Hs as [[_ <-]|[_ Hs]];
          [by apply elem_of_empty in Hx|]).
  by rewrite lookup_empty in Hs.
Qed.

Lemma update_category_spec (sets : gmap string (gset string))
    (k : string) (items : list string) :
  match update_category sets (k, items) with
  | Ok sets' =>
      k ∈ dom sets /\ dom sets' = dom sets
      /\ forall c x, holds sets' c x <-> holds sets c x \/ (c = k /\ x ∈ items)
  | Raise e => e = KeyError /\ k ∉ dom sets
  end.
Proof.
  unfold update_category. simpl.
  destruct (sets !! k) as [s|] eqn:E.
  - split; [apply elem_of_dom; eauto|]. split.
    + rewrite dom_insert_L. apply elem_of_dom_2 in E.
      apply set_eq. intros c. rewrite elem_of_union, elem_of_singleton.
      naive_solver.
    + intros c x. unfold holds. destruct (decide (c = k)) as [->|Hne].
      * rewrite lookup_insert_eq, E. split.
        -- intros (s' & [= <-] & Hx).
           apply elem_of_union in Hx as [Hx|Hx]; [left; eauto|].
           right. split; [done|]. by apply elem_of_list_to_set in Hx.
        -- intros [(s' & [= <-] & Hx)|[_ Hx]];
             (eexists; split; [done|]); apply elem_of_union;
             [by left|right; by apply elem_of_list_to_set].
      * rewrite lookup_insert_ne by done. naive_solver.
  - split; [done|]. by apply not_elem_of_dom.
Qed.

Lemma update_sets_spec (entries : list (string * list string))
    (sets : gmap string (gset string)) :
  match update_sets sets entries with
  | Ok sets' =>
      (forall k items, (k, items) ∈ entries -> k ∈ dom sets)
      /\ dom sets' = dom sets
      /\ forall c x,
           holds sets' c x
           <-> holds sets c x \/ exists items, (c, items) ∈ entries /\ x ∈ items
  | Raise e =>
      e = KeyError /\ exists k items, (k, items) ∈ entries /\ k ∉ dom sets
  end.
Proof.
  revert sets. induction entries as [|[k items] rest IH]; intros sets; simpl.
  - split; [intros k items H; by apply elem_of_nil in H|]. split; [done|].
    intros c x. split; [by left|]. intros [H|(items & H & _)]; [done|].
    by apply elem_of_nil in H.
  - pose proof (update_category_spec sets k items) as Hu.
    destruct (update_category sets (k, items)) as [sets1|e]; simpl.
    + destruct Hu as (Hk & Hd & Hh). specialize (IH sets1).
      destruct (update_sets sets1 rest) as [sets2|e].
      * destruct IH as (Hks & Hd2 & Hh2). split; [|split].
        -- intros k' items' [[= -> ->]|Hin]%elem_of_cons; [done|].
           rewrite <- Hd. by eapply Hks.
        -- by rewrite Hd2.
        -- intros c x. rewrite Hh2, Hh. split.
           ++ intros [[H|[-> H]]|(its & Hin & Hx)]; [by left|right..].
              ** exists items. split; [apply elem_of_cons; by left|done].
              ** exists its. split; [apply elem_of_cons; by right|done].
           ++ intros [H|(its & [[= -> ->]|Hin]%elem_of_cons & Hx)].
              ** by left; left.
              ** by left; right.
              ** right. by exists its.
      * destruct IH as (-> & k' & items' & Hin & Hnot). split; [done|].
        exists k', items'. split; [apply elem_of_cons; by right|].
        by rewrite <- Hd.
    + destruct Hu as [-> Hnot]. split; [done|].
      exists k, items. split; [apply elem_of_cons; by left|done].
Qed.

Lemma gather_spec (rs : list report) (sets : gmap string (gset string)) :
  match gather sets rs with
  | Ok sets' =>
      (forall r, r ∈ rs -> dom (key_findings r) ⊆ dom sets)
      /\ dom sets' = dom sets
      /\ forall c x, holds sets' c x <-> holds sets c x \/ found_in rs c x
  | Raise e =>
      e = KeyError
      /\ exists r k, r ∈ rs /\ k ∈ dom (key_findings r) /\ k ∉ dom sets
  end.
Proof.
  revert sets. induction rs as [|r rest IH]; intros sets; simpl.
  - split; [intros r H; by apply elem_of_nil in H|]. split; [done|].
    intros c x. split; [by left|].
    intros [H|(r & items & H & _)]; [done|]. by apply elem_of_nil in H.
  - pose proof (update_sets_spec (map_to_list (key_findings r)) sets) as Hu.
    destruct (update_sets sets (map_to_list (key_findings r)))
      as [sets1|e]; simpl.
    + destruct Hu as (Hk & Hd & Hh). specialize (IH sets1).
      destruct (gather sets1 rest) as [sets2|e].
      * destruct IH as (Hks & Hd2 & Hh2). split; [|split].
        -- intros r' [->|Hin]%elem_of_cons.
           ++ intros k [items Hi]%elem_of_dom.
              apply (Hk k items). by apply elem_of_map_to_list.
           ++ rewrite <- Hd. by apply Hks.
        -- by rewrite Hd2.
        -- intros c x. rewrite Hh2, Hh. unfold found_in. split.
           ++ intros [[H|(items & Hin & Hx)]|(r' & items & Hin & Hl & Hx)].
              ** by left.
              ** right. exists r, items. split; [apply elem_of_cons; by left|].
                 split; [by apply elem_of_map_to_list|done].
              ** right. exists r', items.
                 split; [apply elem_of_cons; by right|done].
           ++ intros [H|(r' & items & [->|Hin]%elem_of_cons & Hl & Hx)].
              ** by left; left.
              ** left; right. exists items.
                 split; [by apply elem_of_map_to_list|done].
              ** right. by exists r', items.
      * destruct IH as (-> & r' & k & Hin & Hk' & Hnot). split; [done|].
        exists r', k. split; [apply elem_of_cons; by right|].
        split; [done|]. by rewrite <- Hd.
    + destruct Hu as (-> & k & items & Hin & Hnot). split; [done|].
      exists r, k. split; [apply elem_of_cons; by left|]. split; [|done].
      apply elem_of_dom. exists items. by apply elem_of_map_to_list.
Qed.

Section Summary.

Context {L : Libraries}.

(** C3: when there are records, [generate_summary] either returns, and
    then the list the summary holds for each of the five categories is
    strictly ascending in the order of the code points (so no text occurs
    twice) and its members are exactly the texts found for that category
    in any of the records; or it raises [KeyError], and then a record has
    a category outside the five. *)
Theorem generate_summary_findings (stamp : string) (self : analyzer) :
  reports self <> [] ->
  match generate_summary stamp self with
  | Ok (self', _) =>
      reports self' = reports self
      /\ exists s,
           summary self' = Some s
           /\ forall c, c ∈ categories ->
                exists l,
                  summary_findings s !! c = Some l
                  /\ StronglySorted string_lt l
                  /\ forall x, x ∈ l <-> found_in (reports self) c x
  | Raise e =>
      e = KeyError
      /\ exists r k,
           r ∈ reports self /\ k ∈ dom (key_findings r) /\ k ∉ categories
  end.
Proof.
  intros Hne. unfold generate_summary.
  destruct (reports self) as [|r0 rest] eqn:Er; [done|].
  change (truediv _ (length (r0 :: rest))) with
    (Ok (Z.of_nat (list_sum (map (fun r => sentence_count (metadata r))
                                 (r0 :: rest)))
         # Pos.of_nat (length (r0 :: rest))) : result Q).
  cbv beta iota delta [mbind result_bind].
  pose proof (gather_spec (r0 :: rest) no_sets) as Hg.
  destruct (gather no_sets (r0 :: rest)) as [sets|e].
  - destruct Hg as (_ & Hd & Hh). simpl. split; [done|].
    eexists. split; [reflexivity|]. simpl. intros c Hc.
    assert (Hin : c ∈ dom sets).
    { rewrite Hd, no_sets_dom. by apply elem_of_list_to_set. }
    apply elem_of_dom in Hin as [s Hs].
    exists (sorted s). rewrite lookup_fmap, Hs. split; [done|].
    destruct (sorted_spec s) as [Hsorted Hmem]. split; [done|].
    intros x. rewrite Hmem. specialize (Hh c x). split.
    + intros Hx. destruct (proj1 Hh) as [H|H]; [by exists s| |done].
      by apply no_sets_holds in H.
    + intros Hx. destruct (proj2 Hh (or_intror Hx)) as (s' & Hs' & Hx').
      by simplify_eq.
  - destruct Hg as (-> & r & k & Hin & Hk & Hnot). split; [done|].
    exists r, k. split; [done|]. split; [done|].
    rewrite no_sets_dom in Hnot. by rewrite elem_of_list_to_set in Hnot.
Qed.

(** C9: with no record, [generate_summary] returns the text ["No
    reports have been processed yet."] and leaves the object as it was;
    and whatever the state, it never raises [ZeroDivisionError], although
    the division of the model does raise it for a zero divisor: the
    division is reached only with the count of a list that has a first
    record. *)
Theorem generate_summary_no_reports (stamp : string)
    (stored : option summary_t) (patterns : list (string * string)) :
  generate_summary stamp
    {| reports := []; summary := stored; findings_patterns := patterns |}
  = Ok ({| reports := []; summary := stored; findings_patterns := patterns |},
        "No reports have been processed yet.")
  /\ (forall self, generate_summary stamp self <> Raise ZeroDivisionError)
  /\ (forall a, truediv a 0 = Raise ZeroDivisionError).
Proof.
  split; [reflexivity|]. split; [|done].
  intros self. unfold generate_summary.
  destruct (reports self) as [|r0 rest] eqn:Er; [done|].
  change (truediv _ (length (r0 :: rest))) with
    (Ok (Z.of_nat (list_sum (map (fun r => sentence_count (metadata r))
                                 (r0 :: rest)))
         # Pos.of_nat (length (r0 :: rest))) : result Q).
  cbv beta iota delta [mbind result_bind].
  pose proof (gather_spec (r0 :: rest) no_sets) as Hg.
  destruct (gather no_sets (r0 :: rest)) as [sets|e]; [done|].
  destruct Hg as [-> _]. done.
Qed.

End Summary.

Lemma two_reports_summary :
  (fun r => (fun s => summary_findings s !! "diagnoses") <$> summary r.1)
    <$> generate_summary (L := python_libs) "2025-02-26 10:00:02" two_reports
  = Ok (Some (Some ["Cold"; "Flu"])).
Proof. vm_compute. reflexivity. Qed.

Lemma generate_summary_findings_witness :
  exists self' text s l,
    generate_summary (L := python_libs) "2025-02-26 10:00:02" two_reports
    = Ok (self', text)
    /\ summary self' = Some s
    /\ summary_findings s !! "diagnoses" = Some l
    /\ StronglySorted string_lt l
    /\ forall x, x ∈ l <-> found_in (reports two_reports) "diagnoses" x.
Proof.
  pose proof (generate_summary_findings (L := python_libs)
                "2025-02-26 10:00:02" two_reports) as H.
  destruct (generate_summary (L := python_libs) "2025-02-26 10:00:02"
              two_reports) as [[self' text]|e] eqn:E.
  - destruct H as (_ & s & Hs & Hc); [discriminate|].
    destruct (Hc "diagnoses") as (l & Hl & Hsorted & Hmem).
    { apply elem_of_cons. by left. }
    exists self', text, s, l.
    split; [reflexivity|]. split; [exact Hs|]. split; [exact Hl|].
    split; [exact Hsorted|exact Hmem].
  - exfalso. pose proof two_reports_summary as H2. rewrite E in H2.
    discriminate.
Defined.

(** * Further properties of the code *)

(** ** The normaliser *)

Lemma filter_kept (keep : ascii -> bool) (l : list ascii) :
  Forall (fun c => keep c = true) (List.filter keep l).
Proof.
  induction l as [|c l IH]; simpl; [constructor|].
  destruct (keep c) eqn:E; [by constructor | done].
Qed.

Lemma Forall_and_intro {A} (P Q : A -> Prop) (l : list A) :
  Forall P l -> Forall Q l -> Forall (fun x => P x /\ Q x) l.
Proof. induction 1; intros HQ; [constructor|]. inversion HQ; subst. auto. Qed.

(** X1: the text [_clean_text] returns holds printable characters only,
    whatever the input: no newline, no tabulation, no control character,
    and no whitespace but the space. *)
Theorem clean_text_printable (text : string) :
  Forall (fun c => isprintable c = true /\ c <> nl
                   /\ (isspace c = true -> c = sp))
         (chars (_clean_text text)).
Proof.
  rewrite clean_text_chars, chars_str. unfold clean_chars.
  apply strip_Forall.
  eapply Forall_impl.
  - apply Forall_and_intro.
    + apply (filter_kept (fun c => isprintable c || is_nl c)).
    + apply filter_Forall, sub_runs_only_spaces.
  - intros c [Hk Hs]. simpl in Hk.
    assert (Hn : is_nl c = false).
    { destruct (is_nl c) eqn:E; [|done].
      pose proof (is_nl_isspace c E) as Hw. apply Hs in Hw.
      subst c. discriminate. }
    rewrite Hn, orb_false_r in Hk. repeat split; [done| |done].
    intros ->. discriminate.
Qed.


(** X3: on a text made of printable characters and whitespace,
    [_clean_text] is idempotent and its output has no two neighbouring
    spaces. *)
Theorem clean_text_plain (text : string) :
  Forall plain (chars text) ->
  _clean_text (_clean_text text) = _clean_text text
  /\ single_spaced (chars (_clean_text text)).
Proof.
  intros H. split.
  - by apply clean_text_idempotent_plain.
  - by apply clean_text_single_spaced.
Qed.

Lemma plain_forallb (l : list ascii) :
  forallb (fun c => isprintable c || isspace c) l = true -> Forall plain l.
Proof.
  induction l as [|c l IH]; simpl; [constructor|].
  intros [Hc Hl]%andb_true_iff. constructor; [|auto].
  apply orb_true_iff in Hc. exact Hc.
Qed.

Lemma clean_text_plain_witness :
  _clean_text (_clean_text scenario_text) = _clean_text scenario_text
  /\ single_spaced (chars (_clean_text scenario_text)).
Proof.
  apply (clean_text_plain scenario_text).
  apply plain_forallb. vm_compute. reflexivity.
Defined.

Lemma str_length (l : list ascii) : String.length (str l) = length l.
Proof. induction l as [|c l IH]; simpl; [done|]. by rewrite IH. Qed.

Lemma chars_length (s : string) : length (chars s) = String.length s.
Proof. induction s as [|c s IH]; simpl; [done|]. by rewrite IH. Qed.

Lemma sub_runs_shorter (p : ascii -> bool) (rep : ascii) (b : bool)
    (l : list ascii) :
  length (sub_runs p rep b l) <= length l.
Proof.
  revert b. induction l as [|c l IH]; intros b; simpl; [done|].
  destruct (p c).
  - destruct b; simpl; specialize (IH true); lia.
  - simpl. specialize (IH false). lia.
Qed.

Lemma filter_shorter (keep : ascii -> bool) (l : list ascii) :
  length (List.filter keep l) <= length l.
Proof.
  induction l as [|c l IH]; simpl; [done|]. destruct (keep c); simpl; lia.
Qed.

Lemma strip_shorter (l : list ascii) : length (strip l) <= length l.
Proof.
  unfold strip. destruct (lstrip_suffix l) as [h Hh].
  destruct (rstrip_prefix (lstrip l)) as [t Ht].
  rewrite Hh at 2. rewrite Ht at 2. rewrite !length_app. lia.
Qed.

(** X4: [_clean_text] never lengthens a text: the character count of a
    record is at most the length of the text that was extracted. *)
Theorem clean_text_shorter (text : string) :
  String.length (_clean_text text) <= String.length text.
Proof.
  rewrite clean_text_chars, str_length, <- chars_length. unfold clean_chars.
  etransitivity; [apply strip_shorter|].
  etransitivity; [apply filter_shorter|].
  etransitivity; [apply sub_runs_shorter|]. apply sub_runs_shorter.
Qed.

(** ** The finding extractor *)

Section Findings.

Context {L : Libraries}.

Lemma collect_from_empty (matches : list group1) (found : list string) :
  collect matches [] = Ok found ->
  exists captured, matches = map GroupText captured
                   /\ found = candidates captured.
Proof.
  intros H. destruct (collect_returns _ _ _ H) as [captured ->].
  exists captured. split; [done|].
  rewrite collect_texts in H. by injection H as <-.
Qed.

Lemma scan_patterns_Forall (P : list string -> Prop)
    (patterns : list (string * string)) (content : string)
    (start fm : gmap string (list string)) :
  (forall captured, P (candidates captured)) ->
  (forall c l, start !! c = Some l -> P l) ->
  scan_patterns patterns content start = Ok fm ->
  forall c l, fm !! c = Some l -> P l.
Proof.
  intros Hcand. revert start.
  induction patterns as [|[category pattern] rest IH];
    intros start Hstart H; simpl in H.
  - by injection H as <-.
  - destruct (re_compile pattern) as [p|]; simpl in H; [|discriminate].
    destruct (collect (re_finditer p content) []) as [found|] eqn:Ef;
      simpl in H; [|discriminate].
    apply (IH (<[category:=found]> start)); [|exact H]. intros c l.
    destruct (decide (category = c)) as [->|Hne].
    + rewrite lookup_insert_eq. intros [= <-].
      destruct (collect_from_empty _ _ Ef) as (captured & _ & ->).
      apply Hcand.
    + rewrite lookup_insert_ne by done. apply Hstart.
Qed.

(** X5: every finding the extractor stores, in any category and under
    any registry, is at least three characters long, is trimmed, has no
    whitespace but single spaces, and no two of them side by side. *)
Theorem extract_key_findings_normal (self : analyzer) (content : string)
    (fm : gmap string (list string)) (c : string) (l : list string)
    (t : string) :
  extract_key_findings self content = Ok fm ->
  fm !! c = Some l -> t ∈ l ->
  3 <= String.length t /\ strip (chars t) = chars t
  /\ single_spaced (chars t) /\ only_spaces (chars t).
Proof.
  intros H Hl Ht. rewrite <- chars_length.
  revert c l Hl t Ht.
  assert (Hinit : forall c l, no_findings !! c = Some l ->
            forall t, t ∈ l ->
              3 <= length (chars t) /\ strip (chars t) = chars t
              /\ single_spaced (chars t) /\ only_spaces (chars t)).
  { intros c l Hl t Ht. unfold no_findings in Hl.
    repeat (apply lookup_insert_Some in Hl as [[_ <-]|[_ Hl]];
            [by apply elem_of_nil in Ht|]).
    by rewrite lookup_empty in Hl. }
  unfold extract_key_findings in H. destruct (nonempty content).
  - apply (scan_patterns_Forall
             (fun l => forall t, t ∈ l ->
                3 <= length (chars t) /\ strip (chars t) = chars t
                /\ single_spaced (chars t) /\ only_spaces (chars t))
             _ _ _ _ (fun captured t Ht => candidates_normal captured t Ht)
             Hinit H).
  - injection H as <-. exact Hinit.
Qed.

End Findings.

Lemma extract_key_findings_normal_witness :
  3 <= String.length "Flu (type A)"
  /\ strip (chars "Flu (type A)") = chars "Flu (type A)"
  /\ single_spaced (chars "Flu (type A)")
  /\ only_spaces (chars "Flu (type A)").
Proof.
  destruct (lookups_Ok _ _ _ repeated_lookups) as (fm & Hfm & Hl).
  injection Hl as Hl.
  apply (extract_key_findings_normal (L := python_libs) new_analyzer
           repeated_text fm "diagnoses" _ "Flu (type A)" Hfm Hl).
  apply elem_of_cons. by left.
Defined.

(** ** Processing files *)

Section Records.

Context {L : Libraries}.

Lemma count_words_clean (l : list ascii) :
  starts_clean l -> (count_words false l = 0 <-> l = []).
Proof.
  destruct l as [|c l]; simpl; [done|]. intros ->. split; discriminate.
Qed.

Lemma read_content_text (file_ext : string) (f : file) (raw : string) :
  read_content file_ext f = Ok (Some raw) -> file_ext ∈ supported.
Proof.
  intros H. destruct (decide (file_ext ∈ supported)) as [|Hno]; [done|].
  rewrite (read_content_unsupported _ _ Hno) in H. discriminate.
Qed.

(** X6: when [process_file] returns [True], nothing is shown and one
    record is appended whose name is the name of the file, whose type is
    the lower-cased extension and one of the four supported ones, whose
    content is the normal form of the text that was read, whose findings
    are those the extractor gives for that content under the registry of
    the moment, and whose character and word counts agree with the
    content: the word count is zero exactly for an empty content, and then
    so is the sentence count. *)
Theorem process_file_record (now : string) (f : file)
    (self self' : analyzer) (shown : list notice) :
  process_file now f self = (self', shown, true) ->
  exists r raw,
    reports self' = reports self ++ [r] /\ shown = []
    /\ read_content (lower (suffix (file_name f))) f = Ok (Some raw)
    /\ name r = file_name f /\ date r = now
    /\ type r = lower (suffix (file_name f)) /\ type r ∈ supported
    /\ content r = _clean_text raw
    /\ extract_key_findings self (content r) = Ok (key_findings r)
    /\ character_count (metadata r) = String.length (content r)
    /\ (word_count (metadata r) = 0 <-> content r = "")
    /\ (content r = "" -> sentence_count (metadata r) = 0).
Proof.
  unfold process_file.
  destruct (read_content (lower (suffix (file_name f))) f)
    as [[raw|]|e] eqn:Er; simpl; [|discriminate..].
  unfold make_report.
  destruct (extract_key_findings self (_clean_text raw)) as [fm|e] eqn:Ef;
    simpl; [|discriminate].
  destruct (if nonempty (_clean_text raw)
            then length <$> sent_tokenize (_clean_text raw) else Ok 0)
    as [n|e] eqn:En; simpl; [|discriminate].
  intros [= <- <-]. eexists. exists raw. simpl.
  do 6 (split; [done|]). split; [by apply read_content_text in Er|].
  do 3 (split; [done|]). split; [split|].
  - simpl. intros H. rewrite clean_text_chars in H |- *.
    rewrite chars_str in H. apply count_words_clean in H.
    + by rewrite H.
    + apply rstrip_starts_clean, lstrip_starts_clean.
  - simpl. intros H. by rewrite H.
  - simpl. intros H. rewrite H in En. simpl in En. by injection En as <-.
Qed.

(** X7: when the tokenizer raises, as it does when its data could not be
    downloaded, a file whose normal form is not empty is rejected with
    that exception, whatever its findings; the object is as it was. *)
Theorem process_file_tokenizer_error (now : string) (f : file)
    (self : analyzer) (raw : string) (fm : gmap string (list string))
    (e : exn) :
  read_content (lower (suffix (file_name f))) f = Ok (Some raw) ->
  extract_key_findings self (_clean_text raw) = Ok fm ->
  _clean_text raw <> "" ->
  sent_tokenize (_clean_text raw) = Raise e ->
  process_file now f self
  = (self, [ProcessingError (file_name f) e], false).
Proof.
  intros Hr Hf Hne Ht. unfold process_file, make_report.
  rewrite Hr. simpl. rewrite Hf. simpl.
  destruct (_clean_text raw); [done|]. simpl. by rewrite Ht.
Qed.

Lemma join_lines_no_text (parts : list string) :
  Forall (fun p => p = "") parts ->
  join_lines (List.filter nonempty parts) = "".
Proof. induction 1 as [|p parts -> _ IH]; simpl; done. Qed.

(** X8: a PDF whose pages give no text, or a Word document whose
    paragraphs are all empty, is processed with success: its record has
    an empty content, the five categories with no finding and counts of
    zero, whatever the registry holds, and no tokenizer is called. *)
Theorem process_file_no_text (now : string) (f : file) (self : analyzer)
    (parts : list string) :
  (lower (suffix (file_name f)) = ".pdf"
   /\ pdf_pages (file_bytes f) = Ok parts)
  \/ ((lower (suffix (file_name f)) = ".doc"
       \/ lower (suffix (file_name f)) = ".docx")
      /\ docx_paragraphs (file_bytes f) = Ok parts) ->
  Forall (fun p => p = "") parts ->
  process_file now f self
  = ({| reports :=
          reports self
          ++ [ {| name := file_name f; content := ""; date := now;
                  type := lower (suffix (file_name f));
                  key_findings := no_findings;
                  metadata := {| word_count := 0; character_count := 0;
                                 sentence_count := 0 |} |} ];
        summary := summary self;
        findings_patterns := findings_patterns self |}, [], true).
Proof.
  intros Hcase Hparts. unfold process_file.
  assert (Hread : read_content (lower (suffix (file_name f))) f
                  = Ok (Some "")).
  { unfold read_content, _extract_pdf_content, _extract_docx_content.
    destruct Hcase as [[-> Hp]|[[->| ->] Hp]]; simpl; rewrite Hp; simpl;
      by rewrite (join_lines_no_text _ Hparts). }
  rewrite Hread. reflexivity.
Qed.

Lemma process_files_trace (batch : list (string * file))
    (self : analyzer) :
  let '(self', _, done) := process_files batch self in
  exists added,
    reports self' = reports self ++ added
    /\ map name added = done
    /\ findings_patterns self' = findings_patterns self
    /\ summary self' = summary self
    /\ sublist done (map (fun entry => file_name entry.2) batch).
Proof.
  revert self. induction batch as [|[now f] rest IH]; intros self; simpl.
  - exists []. by rewrite app_nil_r.
  - destruct (process_file_cases now f self)
      as [(r & -> & Hn & _)|[->|[e ->]]].
    + match goal with
      | |- context [process_files rest ?s] =>
          specialize (IH s); destruct (process_files rest s) as [[s2 sh] dn]
      end.
      destruct IH as (added & Hr & Hd & Hp & Hs & Hsub). simpl in *.
      exists (r :: added). rewrite Hr, <- app_assoc. simpl.
      rewrite Hn, Hd. repeat split; try done. by constructor.
    + specialize (IH self).
      destruct (process_files rest self) as [[s2 sh] dn].
      destruct IH as (added & Hr & Hd & Hp & Hs & Hsub).
      exists added. repeat split; try done. by constructor.
    + specialize (IH self).
      destruct (process_files rest self) as [[s2 sh] dn].
      destruct IH as (added & Hr & Hd & Hp & Hs & Hsub).
      exists added. repeat split; try done. by constructor.
Qed.

(** X9: a batch only appends: the records after it are the records
    before it followed by one record for each file reported as processed,
    in the order of the batch and under the names of those files; the
    registry and the stored summary are unchanged, and the files reported
    are among the files of the batch, in their order. *)
Theorem process_files_extends (batch : list (string * file))
    (self : analyzer) :
  let '(self', _, done) := process_files batch self in
  exists added,
    reports self' = reports self ++ added
    /\ map name added = done
    /\ findings_patterns self' = findings_patterns self
    /\ summary self' = summary self
    /\ sublist done (map (fun entry => file_name entry.2) batch).
Proof. apply process_files_trace. Qed.

End Records.

Lemma flu_file_processed :
  (process_file (L := python_libs) "2025-02-26T10:00:00" flu_file
     new_analyzer).2 = true.
Proof. vm_compute. reflexivity. Qed.

Lemma process_file_record_witness :
  exists r,
    name r = "visit.TXT" /\ type r = ".txt"
    /\ content r = "Diagnosis: Flu"
    /\ character_count (metadata r) = 14.
Proof.
  pose proof flu_file_processed as Hok.
  destruct (process_file (L := python_libs) "2025-02-26T10:00:00" flu_file
              new_analyzer) as [[self' shown] ok] eqn:E.
  simpl in Hok. subst ok.
  destruct (process_file_record (L := python_libs) _ _ _ _ _ E)
    as (r & raw & _ & _ & Hread & Hn & _ & Ht & _ & Hc & _ & Hcc & _).
  exists r. split; [exact Hn|]. split; [exact Ht|].
  assert (Hraw : raw = "Diagnosis: Flu").
  { assert (Hr : read_content (L := python_libs)
                   (lower (suffix (file_name flu_file))) flu_file
                 = Ok (Some "Diagnosis: Flu")) by (vm_compute; reflexivity).
    rewrite Hr in Hread. by injection Hread. }
  subst raw. split; [exact Hc|]. rewrite Hcc, Hc. reflexivity.
Defined.

Lemma flu_findings_exist :
  lookups (extract_key_findings (L := without_punkt) new_analyzer
             (_clean_text "Diagnosis: Flu")) ["diagnoses"]
  = Ok [Some ["Flu"]].
Proof. vm_compute. reflexivity. Qed.

Lemma process_file_tokenizer_error_witness :
  process_file (L := without_punkt) "2025-02-26T10:00:00" flu_file
    new_analyzer
  = (new_analyzer,
     [ProcessingError "visit.TXT" (LibraryError "LookupError")], false).
Proof.
  destruct (lookups_Ok _ _ _ flu_findings_exist) as (fm & Hfm & _).
  apply (process_file_tokenizer_error (L := without_punkt)
           "2025-02-26T10:00:00" flu_file new_analyzer "Diagnosis: Flu" fm).
  - vm_compute. reflexivity.
  - exact Hfm.
  - vm_compute. discriminate.
  - reflexivity.
Defined.

Lemma process_file_no_text_witness :
  process_file (L := scanned_pages) "2025-02-26T10:00:00" scan_file
    new_analyzer
  = ({| reports :=
          [ {| name := "scan.PDF"; content := "";
               date := "2025-02-26T10:00:00"; type := ".pdf";
               key_findings := no_findings;
               metadata := {| word_count := 0; character_count := 0;
                              sentence_count := 0 |} |} ];
        summary := None;
        findings_patterns := default_patterns |}, [], true).
Proof.
  apply (process_file_no_text (L := scanned_pages) "2025-02-26T10:00:00"
           scan_file new_analyzer [""; ""]).
  - left. split; [vm_compute; reflexivity | reflexivity].
  - repeat constructor.
Defined.

(** ** The summary builder *)

Lemma count_type_keys (t : string) (d : list (string * nat)) :
  (count_type t d).*1 = if decide (t ∈ d.*1) then d.*1 else d.*1 ++ [t].
Proof.
  induction d as [|[k n] d IH].
  - simpl. destruct (decide (t ∈ [])) as [H|_]; [|done].
    by apply elem_of_nil in H.
  - change (((k, n) :: d).*1) with (k :: d.*1). simpl count_type.
    destruct (String.eqb k t) eqn:E.
    + apply String.eqb_eq in E as ->.
      change (((t, S n) :: d).*1) with (t :: d.*1).
      destruct (decide (t ∈ t :: d.*1)) as [_|H]; [done|].
      exfalso. apply H, elem_of_cons. by left.
    + apply String.eqb_neq in E.
      change (((k, n) :: count_type t d).*1)
        with (k :: (count_type t d).*1).
      rewrite IH.
      destruct (decide (t ∈ d.*1)) as [Hin|Hno];
        destruct (decide (t ∈ k :: d.*1)) as [Hin'|Hno']; try done.
      * exfalso. apply Hno', elem_of_cons. by right.
      * exfalso. apply elem_of_cons in Hin' as [?|?]; by subst.
Qed.

Lemma count_type_lookup (t t' : string) (d : list (string * nat)) :
  type_count t' (count_type t d)
  = type_count t' d + (if String.eqb t t' then 1 else 0).
Proof.
  induction d as [|[k n] d IH]; simpl.
  - destruct (String.eqb t t'); lia.
  - destruct (String.eqb k t) eqn:E; simpl.
    + apply String.eqb_eq in E as ->.
      destruct (String.eqb t t'); lia.
    + destruct (String.eqb k t') eqn:E'; [|exact IH].
      apply String.eqb_eq in E' as ->. apply String.eqb_neq in E.
      assert (String.eqb t t' = false) as ->; [|lia].
      apply String.eqb_neq. congruence.
Qed.

Lemma count_type_sum (t : string) (d : list (string * nat)) :
  list_sum (count_type t d).*2 = S (list_sum d.*2)
  /\ (Forall (fun e => 0 < e.2) d ->
      Forall (fun e => 0 < e.2) (count_type t d)).
Proof.
  induction d as [|[k n] d [IHs IHp]].
  - split; [done|]. intros _. repeat constructor.
  - simpl count_type. destruct (String.eqb k t).
    + split; [done|]. intros [Hn Hd]%Forall_cons.
      constructor; [simpl; lia|done].
    + change (((k, n) :: count_type t d).*2)
        with (n :: (count_type t d).*2).
      change (((k, n) :: d).*2) with (n :: d.*2).
      split; [simpl; rewrite IHs; lia|].
      intros [Hn Hd]%Forall_cons. constructor; auto.
Qed.

Lemma count_types_spec (rs : list report) (d : list (string * nat)) :
  NoDup d.*1 -> Forall (fun e => 0 < e.2) d ->
  let d' := fold_left (fun type_counts r => count_type (type r) type_counts)
                      rs d in
  NoDup d'.*1 /\ Forall (fun e => 0 < e.2) d'
  /\ (forall t, type_count t d' = type_count t d + records_of t rs)
  /\ list_sum d'.*2 = list_sum d.*2 + length rs.
Proof.
  revert d. induction rs as [|r rs IH]; intros d Hnd Hpos; simpl.
  - split; [done|]. split; [done|].
    split; [intros t; unfold records_of; simpl; lia | simpl; lia].
  - destruct (IH (count_type (type r) d)) as (Hnd' & Hpos' & Hl & Hs).
    + rewrite count_type_keys. destruct (decide (type r ∈ d.*1)); [done|].
      apply NoDup_app. repeat split; [done| |apply NoDup_singleton].
      intros x Hx [->|[]%elem_of_nil]%elem_of_cons. done.
    + by apply count_type_sum.
    + split; [done|]. split; [done|]. split.
      * intros t. rewrite Hl, count_type_lookup. unfold records_of. simpl.
        destruct (String.eqb (type r) t); simpl; lia.
      * rewrite Hs. destruct (count_type_sum (type r) d) as [-> _]. lia.
Qed.

Section Totals.

Context {L : Libraries}.

(** What [generate_summary] stores when there are records and it
    returns. *)
Lemma generate_summary_stored (stamp : string) (self self' : analyzer)
    (text : string) :
  reports self <> [] ->
  generate_summary stamp self = Ok (self', text) ->
  exists sets,
    gather no_sets (reports self) = Ok sets
    /\ self' = {| reports := reports self;
                  summary :=
                    Some {| total_reports := length (reports self);
                            report_types := _count_report_types self;
                            report_dates := _extract_report_dates self;
                            summary_findings := sorted <$> sets;
                            total_word_count :=
                              list_sum (map (fun r => word_count (metadata r))
                                            (reports self));
                            avg_sentences_per_report :=
                              Z.of_nat
                                (list_sum
                                   (map (fun r => sentence_count (metadata r))
                                        (reports self)))
                              # Pos.of_nat (length (reports self)) |};
                  findings_patterns := findings_patterns self |}
    /\ text = format_summary stamp self'.
Proof.
  intros Hne. unfold generate_summary.
  destruct (reports self) as [|r0 rest] eqn:Er; [done|].
  change (truediv _ (length (r0 :: rest))) with
    (Ok (Z.of_nat (list_sum (map (fun r => sentence_count (metadata r))
                                 (r0 :: rest)))
         # Pos.of_nat (length (r0 :: rest))) : result Q).
  cbv beta iota delta [mbind result_bind].
  destruct (gather no_sets (r0 :: rest)) as [sets|e]; [|discriminate].
  intros [= <- <-]. exists sets. split; [done|]. split; [|done].
  unfold _count_report_types, _extract_report_dates. by rewrite Er.
Qed.

(** X11: in a summary that was generated, the count of reports is the
    number of records; the counts by type have one entry per type, each
    positive and equal to the number of records of that type, and they add
    up to the count of reports; the dates are those of the records in
    their order; and the word total is the sum over the records. *)
Theorem generate_summary_totals (stamp : string) (self self' : analyzer)
    (text : string) :
  reports self <> [] ->
  generate_summary stamp self = Ok (self', text) ->
  exists s,
    summary self' = Some s
    /\ total_reports s = length (reports self)
    /\ NoDup (report_types s).*1
    /\ (forall t, type_count t (report_types s)
                  = records_of t (reports self))
    /\ (forall t n, (t, n) ∈ report_types s -> 0 < n)
    /\ list_sum (report_types s).*2 = total_reports s
    /\ report_dates s = map date (reports self)
    /\ total_word_count s
       = list_sum (map (fun r => word_count (metadata r)) (reports self)).
Proof.
  intros Hne H.
  destruct (generate_summary_stored _ _ _ _ Hne H) as (sets & _ & -> & _).
  eexists. split; [reflexivity|]. simpl.
  destruct (count_types_spec (reports self) []) as (Hnd & Hpos & Hl & Hs);
    [apply NoDup_nil_2 | constructor |].
  fold (_count_report_types self) in Hnd, Hpos, Hl, Hs.
  repeat split; try done.
  - intros t n Hin. rewrite Forall_forall in Hpos. by apply (Hpos (t, n)).
Qed.

End Totals.

Section Regeneration.

Context {L : Libraries}.

(** X12: a summary can be generated again: from the state that
    [generate_summary] leaves, the same call returns the same text and
    leaves the same state, whatever summary was stored before the first
    call. *)
Theorem generate_summary_again (stamp : string) (self self' : analyzer)
    (text : string) :
  generate_summary stamp self = Ok (self', text) ->
  generate_summary stamp self' = Ok (self', text).
Proof.
  intros H. destruct (reports self) as [|r0 rest] eqn:Er.
  - unfold generate_summary in H. rewrite Er in H. injection H as <- <-.
    unfold generate_summary. by rewrite Er.
  - assert (Hne : reports self <> []) by (rewrite Er; discriminate).
    destruct (generate_summary_stored _ _ _ _ Hne H) as (sets & Hg & Hs & Ht).
    rewrite Er in Hg.
    assert (Hr : reports self' = r0 :: rest) by (rewrite Hs; exact Er).
    unfold generate_summary. rewrite Hr.
    change (truediv _ (length (r0 :: rest))) with
      (Ok (Z.of_nat (list_sum (map (fun r => sentence_count (metadata r))
                                   (r0 :: rest)))
           # Pos.of_nat (length (r0 :: rest))) : result Q).
    cbv beta iota delta [mbind result_bind]. rewrite Hg.
    assert (Hsame :
      {| reports := r0 :: rest;
         summary :=
           Some {| total_reports := length (r0 :: rest);
                   report_types := _count_report_types self';
                   report_dates := _extract_report_dates self';
                   summary_findings := sorted <$> sets;
                   total_word_count :=
                     list_sum (map (fun r => word_count (metadata r))
                                   (r0 :: rest));
                   avg_sentences_per_report :=
                     Z.of_nat
                       (list_sum (map (fun r => sentence_count (metadata r))
                                      (r0 :: rest)))
                     # Pos.of_nat (length (r0 :: rest)) |};
         findings_patterns := findings_patterns self' |} = self').
    { unfold _count_report_types, _extract_report_dates. rewrite Hr.
      rewrite Hs at 2. rewrite Hs at 1. simpl.
      unfold _count_report_types, _extract_report_dates. by rewrite Er. }
    rewrite Hsame. by rewrite Ht.
Qed.

End Regeneration.

Section Keyed.

Context {L : Libraries}.

Lemma extract_key_findings_dom (self : analyzer) (content : string)
    (fm : gmap string (list string)) :
  extract_key_findings self content = Ok fm ->
  list_to_set categories ⊆ dom fm
  /\ (content <> "" -> list_to_set (findings_patterns self).*1 ⊆ dom fm)
  /\ ((forall c, c ∈ (findings_patterns self).*1 -> c ∈ categories) ->
      dom fm = list_to_set categories).
Proof.
  unfold extract_key_findings. destruct content as [|a t]; cbn [nonempty].
  - intros [= <-]. rewrite no_findings_dom. split; [done|]. split; done.
  - intros H%scan_patterns_dom. rewrite no_findings_dom in H. rewrite H.
    split; [apply union_subseteq_l|]. split; [intros _; apply union_subseteq_r|].
    intros Hk. apply (anti_symm (⊆)); [|apply union_subseteq_l].
    apply union_least; [done|]. apply elem_of_subseteq. intros c Hc.
    apply elem_of_list_to_set in Hc. apply elem_of_list_to_set. auto.
Qed.

Lemma process_file_five_keyed (now : string) (f : file)
    (self self' : analyzer) (shown : list notice) (ok : bool) :
  (forall c, c ∈ (findings_patterns self).*1 -> c ∈ categories) ->
  five_keyed self ->
  process_file now f self = (self', shown, ok) ->
  five_keyed self'.
Proof.
  intros Hk Hfive. unfold process_file.
  destruct (read_content (lower (suffix (file_name f))) f) as [[raw|]|e];
    simpl; [|by intros [= <- _ _]..].
  unfold make_report.
  destruct (extract_key_findings self (_clean_text raw)) as [fm|e] eqn:Ef;
    simpl; [|by intros [= <- _ _]].
  destruct (if nonempty (_clean_text raw)
            then length <$> sent_tokenize (_clean_text raw) else Ok 0)
    as [n|e]; simpl; [|by intros [= <- _ _]].
  intros [= <- _ _] r [Hr|Hr]%elem_of_app; simpl in *.
  - by apply Hfive.
  - apply list_elem_of_singleton in Hr as ->. simpl.
    by apply (extract_key_findings_dom _ _ _ Ef).
Qed.

Lemma process_files_five_keyed (batch : list (string * file))
    (self : analyzer) :
  (forall c, c ∈ (findings_patterns self).*1 -> c ∈ categories) ->
  five_keyed self ->
  five_keyed (process_files batch self).1.1.
Proof.
  revert self. induction batch as [|[now f] rest IH]; intros self Hk Hfive;
    simpl; [done|].
  destruct (process_file now f self) as [[self1 shown1] ok] eqn:E.
  pose proof (process_file_five_keyed _ _ _ _ _ _ Hk Hfive E) as Hfive1.
  assert (Hp : findings_patterns self1 = findings_patterns self).
  { destruct (process_file_cases now f self)
      as [(r & Hr & _)|[Hr|[e Hr]]]; rewrite Hr in E;
      by injection E as <- _ _. }
  specialize (IH self1). rewrite Hp in IH. specialize (IH Hk Hfive1).
  destruct (process_files rest self1) as [[s2 sh2] d2].
  by destruct ok.
Qed.

Lemma generate_summary_five_keyed (stamp : string) (self : analyzer) :
  five_keyed self -> exists out, generate_summary stamp self = Ok out.
Proof.
  intros Hfive. unfold generate_summary.
  destruct (reports self) as [|r0 rest] eqn:Er; [by eexists|].
  change (truediv _ (length (r0 :: rest))) with
    (Ok (Z.of_nat (list_sum (map (fun r => sentence_count (metadata r))
                                 (r0 :: rest)))
         # Pos.of_nat (length (r0 :: rest))) : result Q).
  cbv beta iota delta [mbind result_bind].
  pose proof (gather_spec (r0 :: rest) no_sets) as Hg.
  destruct (gather no_sets (r0 :: rest)) as [sets|e]; [by eexists|].
  destruct Hg as (_ & r & k & Hin & Hk & Hnot). exfalso. apply Hnot.
  rewrite no_sets_dom. rewrite <- (Hfive r); [done|]. by rewrite Er.
Qed.

(** X13: as long as the keys of the registry are among the five
    categories, processing keeps the records keyed by exactly the five
    categories, and the summary can always be generated: from such a
    state, after any batch of files, [generate_summary] returns and does
    not raise. *)
Theorem summary_after_batch (stamp : string) (batch : list (string * file))
    (self : analyzer) :
  (forall c, c ∈ (findings_patterns self).*1 -> c ∈ categories) ->
  five_keyed self ->
  five_keyed (process_files batch self).1.1
  /\ exists out,
       generate_summary stamp (process_files batch self).1.1 = Ok out.
Proof.
  intros Hk Hfive.
  pose proof (process_files_five_keyed batch self Hk Hfive) as H.
  split; [exact H|]. by apply generate_summary_five_keyed.
Qed.

(** X14: a registry with a key outside the five categories, which a
    configuration can load, breaks the summary: once a file with a text
    that is not empty has been processed with success under it,
    [generate_summary] raises [KeyError]. *)
Theorem summary_after_foreign_key (now stamp : string) (f : file)
    (self self' : analyzer) (shown : list notice) (raw k : string) :
  k ∈ (findings_patterns self).*1 -> k ∉ categories ->
  read_content (lower (suffix (file_name f))) f = Ok (Some raw) ->
  _clean_text raw <> "" ->
  process_file now f self = (self', shown, true) ->
  generate_summary stamp self' = Raise KeyError.
Proof.
  intros Hk Hnot Hread Hne. unfold process_file. rewrite Hread. simpl.
  unfold make_report.
  destruct (extract_key_findings self (_clean_text raw)) as [fm|e] eqn:Ef;
    simpl; [|discriminate].
  destruct (if nonempty (_clean_text raw)
            then length <$> sent_tokenize (_clean_text raw) else Ok 0)
    as [n|e]; simpl; [|discriminate].
  intros [= <- _]. unfold generate_summary. simpl reports.
  destruct (extract_key_findings_dom _ _ _ Ef) as (_ & Hdom & _).
  specialize (Hdom Hne).
  match goal with
  | |- context [reports self ++ [?r]] => set (r0 := r)
  end.
  destruct (reports self ++ [r0]) as [|r1 rest] eqn:Er.
  { by apply app_eq_nil in Er as [_ ?]. }
  change (truediv _ (length (r1 :: rest))) with
    (Ok (Z.of_nat (list_sum (map (fun r => sentence_count (metadata r))
                                 (r1 :: rest)))
         # Pos.of_nat (length (r1 :: rest))) : result Q).
  cbv beta iota delta [mbind result_bind].
  pose proof (gather_spec (r1 :: rest) no_sets) as Hg.
  destruct (gather no_sets (r1 :: rest)) as [sets|e].
  - exfalso. destruct Hg as (Hsub & _). apply Hnot.
    apply (proj1 (elem_of_list_to_set (C := gset string) k categories)).
    rewrite <- no_sets_dom. apply (Hsub r0).
    + rewrite <- Er. apply elem_of_app. right. by apply list_elem_of_singleton.
    + apply Hdom. by apply elem_of_list_to_set.
  - by destruct Hg as [-> _].
Qed.

Lemma found_in_more (rs added : list report) (c x : string) :
  found_in rs c x -> found_in (rs ++ added) c x.
Proof.
  intros (r & items & Hr & Hi & Hx). exists r, items.
  split; [|done]. apply elem_of_app. by left.
Qed.

Lemma summary_members (stamp : string) (self self' : analyzer)
    (text : string) :
  reports self <> [] ->
  generate_summary stamp self = Ok (self', text) ->
  exists s,
    summary self' = Some s
    /\ forall c, c ∈ categories ->
         exists l, summary_findings s !! c = Some l
                   /\ forall x, x ∈ l <-> found_in (reports self) c x.
Proof.
  intros Hne H.
  destruct (generate_summary_stored _ _ _ _ Hne H) as (sets & Hg & -> & _).
  eexists. split; [reflexivity|]. simpl. intros c Hc.
  pose proof (gather_spec (reports self) no_sets) as Hspec.
  rewrite Hg in Hspec. destruct Hspec as (_ & Hd & Hh).
  assert (Hin : c ∈ dom sets).
  { rewrite Hd, no_sets_dom. by apply elem_of_list_to_set. }
  apply elem_of_dom in Hin as [s Hs].
  exists (sorted s). rewrite lookup_fmap, Hs. split; [done|].
  intros x. rewrite (proj2 (sorted_spec s)). specialize (Hh c x). split.
  - intros Hx. destruct (proj1 Hh) as [H0|H0]; [by exists s| |done].
    by apply no_sets_holds in H0.
  - intros Hx. destruct (proj2 Hh (or_intror Hx)) as (s' & Hs' & Hx').
    by simplify_eq.
Qed.

(** X15: processing more files never takes a finding out of the
    summary: what the summary lists for a category before a batch, the
    summary generated after the batch lists too. *)
Theorem summary_grows (stamp1 stamp2 : string) (batch : list (string * file))
    (self before after : analyzer) (text1 text2 : string) :
  reports self <> [] ->
  generate_summary stamp1 self = Ok (before, text1) ->
  generate_summary stamp2 (process_files batch self).1.1 = Ok (after, text2) ->
  exists s1 s2,
    summary before = Some s1 /\ summary after = Some s2
    /\ forall c l1 x,
         c ∈ categories -> summary_findings s1 !! c = Some l1 -> x ∈ l1 ->
         exists l2, summary_findings s2 !! c = Some l2 /\ x ∈ l2.
Proof.
  intros Hne H1 H2.
  pose proof (process_files_trace batch self) as Ht.
  destruct (process_files batch self) as [[self2 sh] dn]. simpl in H2.
  destruct Ht as (added & Hr & _).
  assert (Hne2 : reports self2 <> []).
  { rewrite Hr. intros [? _]%app_eq_nil. done. }
  destruct (summary_members _ _ _ _ Hne H1) as (s1 & Hs1 & Hm1).
  destruct (summary_members _ _ _ _ Hne2 H2) as (s2 & Hs2 & Hm2).
  exists s1, s2. split; [done|]. split; [done|].
  intros c l1 x Hc Hl1 Hx.
  destruct (Hm1 c Hc) as (l1' & Hl1' & Hmem1).
  destruct (Hm2 c Hc) as (l2 & Hl2 & Hmem2).
  exists l2. split; [done|]. simplify_eq.
  apply Hmem2. rewrite Hr. apply found_in_more. by apply Hmem1.
Qed.

End Keyed.

Lemma default_keys (c : string) :
  c ∈ (findings_patterns new_analyzer).*1 -> c ∈ categories.
Proof. intros H. exact H. Qed.

Lemma two_reports_keyed : five_keyed two_reports.
Proof.
  intros r Hr. unfold two_reports in Hr. simpl in Hr.
  assert (Hd : forall l : list string,
            dom (<["diagnoses" := l]> no_findings) = list_to_set categories).
  { intros l. rewrite dom_insert_L, no_findings_dom.
    apply (anti_symm (⊆)); [|apply union_subseteq_r].
    apply union_least; [|done]. apply elem_of_subseteq.
    intros c ->%elem_of_singleton. apply elem_of_list_to_set.
    apply elem_of_cons. by left. }
  apply elem_of_cons in Hr as [->|Hr]; [apply Hd|].
  apply elem_of_cons in Hr as [->|Hr]; [apply Hd|].
  by apply elem_of_nil in Hr.
Qed.

Lemma two_reports_generated :
  exists self' text,
    generate_summary (L := python_libs) "2025-02-26 10:00:02" two_reports
    = Ok (self', text).
Proof.
  destruct (generate_summary_five_keyed (L := python_libs)
              "2025-02-26 10:00:02" two_reports two_reports_keyed)
    as [[self' text] H].
  by exists self', text.
Qed.

Lemma generate_summary_totals_witness :
  exists s,
    total_reports s = 2
    /\ type_count ".txt" (report_types s) = 2
    /\ list_sum (report_types s).*2 = 2.
Proof.
  destruct two_reports_generated as (self' & text & H).
  destruct (generate_summary_totals (L := python_libs)
              "2025-02-26 10:00:02" two_reports self' text)
    as (s & _ & Hn & _ & Hc & _ & Hsum & _); [discriminate|exact H|].
  exists s. split; [exact Hn|]. split; [by rewrite Hc|].
  by rewrite Hsum, Hn.
Defined.

Lemma generate_summary_again_witness :
  exists self' text,
    generate_summary (L := python_libs) "2025-02-26 10:00:02" two_reports
    = Ok (self', text)
    /\ generate_summary (L := python_libs) "2025-02-26 10:00:02" self'
       = Ok (self', text).
Proof.
  destruct two_reports_generated as (self' & text & H).
  exists self', text. split; [exact H|].
  exact (generate_summary_again (L := python_libs) _ _ _ _ H).
Defined.

Lemma summary_after_batch_witness :
  five_keyed
    (process_files (L := python_libs) [("2025-02-26T10:00:00", flu_file)]
       new_analyzer).1.1
  /\ exists out,
       generate_summary (L := python_libs) "2025-02-26 10:00:02"
         (process_files (L := python_libs)
            [("2025-02-26T10:00:00", flu_file)] new_analyzer).1.1
       = Ok out.
Proof.
  apply (summary_after_batch (L := python_libs)).
  - exact default_keys.
  - intros r Hr. by apply elem_of_nil in Hr.
Defined.

Lemma allergy_file_processed :
  (process_file (L := python_libs) "2025-02-26T10:00:00" allergy_file
     allergy_analyzer).2 = true.
Proof. vm_compute. reflexivity. Qed.

Lemma summary_after_foreign_key_witness :
  generate_summary (L := python_libs) "2025-02-26 10:00:02"
    (process_file (L := python_libs) "2025-02-26T10:00:00" allergy_file
       allergy_analyzer).1.1
  = Raise KeyError.
Proof.
  pose proof allergy_file_processed as Hok.
  destruct (process_file (L := python_libs) "2025-02-26T10:00:00"
              allergy_file allergy_analyzer) as [[self' shown] ok] eqn:E.
  simpl in Hok. subst ok. simpl.
  apply (summary_after_foreign_key (L := python_libs)
           "2025-02-26T10:00:00" "2025-02-26 10:00:02" allergy_file
           allergy_analyzer self' shown "Allergy: penicillin" "allergies").
  - apply elem_of_cons. by left.
  - unfold categories. intros H.
    repeat (apply elem_of_cons in H as [H|H]; [discriminate|]).
    by apply elem_of_nil in H.
  - vm_compute. reflexivity.
  - vm_compute. discriminate.
  - exact E.
Defined.

Lemma summary_grows_witness :
  exists s1 s2 before after text1 text2,
    generate_summary (L := python_libs) "2025-02-26 10:00:02" two_reports
    = Ok (before, text1)
    /\ generate_summary (L := python_libs) "2025-02-26 10:00:09"
         (process_files (L := python_libs)
            [("2025-02-26T10:00:05", flu_file)] two_reports).1.1
       = Ok (after, text2)
    /\ summary before = Some s1 /\ summary after = Some s2
    /\ forall c l1 x,
         c ∈ categories -> summary_findings s1 !! c = Some l1 -> x ∈ l1 ->
         exists l2, summary_findings s2 !! c = Some l2 /\ x ∈ l2.
Proof.
  destruct two_reports_generated as (before & text1 & H1).
  destruct (generate_summary_five_keyed (L := python_libs)
              "2025-02-26 10:00:09"
              (process_files (L := python_libs)
                 [("2025-02-26T10:00:05", flu_file)] two_reports).1.1)
    as [[after text2] H2].
  { apply process_files_five_keyed; [exact default_keys|].
    exact two_reports_keyed. }
  destruct (summary_grows (L := python_libs) "2025-02-26 10:00:02"
              "2025-02-26 10:00:09" [("2025-02-26T10:00:05", flu_file)]
              two_reports before after text1 text2)
    as (s1 & s2 & Hs1 & Hs2 & Hall);
    [discriminate|exact H1|exact H2|].
  exists s1, s2, before, after, text1, text2.
  split; [exact H1|]. split; [exact H2|]. split; [exact Hs1|].
  split; [exact Hs2|exact Hall].
Defined.

(** ** The default registry *)

Lemma has1_more (extra cs : Re.caps) : has1 cs -> has1 (extra ++ cs).
Proof.
  intros H. induction extra as [|[n t] extra IH]; simpl; [done|].
  unfold has1. simpl. destruct (n =? 1)%nat; [by eexists | exact IH].
Qed.

Lemma m_star (greedy : bool) (r : Re.regex) (pos : nat) (rest : list ascii)
    (cs : Re.caps) (k : Re.kont) :
  Re.m (Re.Star greedy r) pos rest cs k
  = star_loop greedy (Re.m r) k (S (length rest)) pos rest cs.
Proof. reflexivity. Qed.

(** A match is what the continuation answered, on captures that only
    grew. *)
Lemma m_answer (r : Re.regex) :
  forall pos rest cs k res,
    Re.m r pos rest cs k = Some res ->
    exists p l extra, k p l (extra ++ cs) = Some res.
Proof.
  induction r as [| a | | neg its | | | r1 IH1 r2 IH2 | r1 IH1 r2 IH2
                 | greedy r' IH | n r' IH];
    intros pos rest cs k res H.
  - by exists pos, rest, [].
  - simpl in H. destruct rest as [|c rest']; [discriminate|].
    destruct (lower_char a =? lower_char c)%char; [|discriminate].
    by exists (S pos), rest', [].
  - simpl in H. destruct rest as [|c rest']; [discriminate|].
    destruct (is_nl c); [discriminate|]. by exists (S pos), rest', [].
  - simpl in H. destruct rest as [|c rest']; [discriminate|].
    destruct (xorb neg _); [|discriminate]. by exists (S pos), rest', [].
  - simpl in H. destruct (pos =? 0)%nat; [|discriminate].
    by exists pos, rest, [].
  - simpl in H. destruct rest as [|c [|d rest']].
    + by exists pos, [], [].
    + destruct (is_nl c); [|discriminate]. by exists pos, [c], [].
    + discriminate.
  - simpl in H. apply IH1 in H as (p & l & extra & H).
    apply IH2 in H as (p' & l' & extra' & H).
    exists p', l', (extra' ++ extra). by rewrite <- app_assoc.
  - simpl in H. destruct (Re.m r1 pos rest cs k) as [x|] eqn:E.
    + injection H as ->. by apply IH1 in E.
    + by apply IH2 in H.
  - rewrite m_star in H. revert H. generalize (S (length rest)).
    intros fuel. revert pos rest cs.
    induction fuel as [|fuel IHf]; intros pos rest cs H; simpl in H.
    + by exists pos, rest, [].
    + destruct greedy.
      * match type of H with
        | match ?body with _ => _ end = _ => destruct body as [x|] eqn:E
        end.
        -- injection H as ->. apply IH in E as (p & l & extra & E).
           destruct (pos <? p)%nat; [|by exists p, l, extra].
           apply IHf in E as (p' & l' & extra' & E).
           exists p', l', (extra' ++ extra). by rewrite <- app_assoc.
        -- by exists pos, rest, [].
      * match type of H with
        | match ?stop with _ => _ end = _ => destruct stop as [x|] eqn:E
        end.
        -- injection H as ->. by exists pos, rest, [].
        -- apply IH in H as (p & l & extra & H).
           destruct (pos <? p)%nat; [|by exists p, l, extra].
           apply IHf in H as (p' & l' & extra' & H).
           exists p', l', (extra' ++ extra). by rewrite <- app_assoc.
  - simpl in H. apply IH in H as (p & l & extra & H).
    by exists p, l, ((n, take (p - pos) rest) :: extra).
Qed.

(** When group 1 is on every path, the continuation answered on
    captures that hold it. *)
Lemma m_captures (r : Re.regex) :
  always1 r = true ->
  forall pos rest cs k res,
    Re.m r pos rest cs k = Some res ->
    exists p l cs', k p l cs' = Some res /\ has1 cs'.
Proof.
  induction r as [| a | | neg its | | | r1 IH1 r2 IH2 | r1 IH1 r2 IH2
                 | greedy r' IH | n r' IH];
    simpl; intros Ha pos rest cs k res H; try discriminate.
  - apply orb_true_iff in Ha as [Ha|Ha].
    + simpl in H. apply (IH1 Ha) in H as (p & l & cs' & H & H1).
      apply m_answer in H as (p' & l' & extra & H).
      exists p', l', (extra ++ cs'). split; [done|]. by apply has1_more.
    + simpl in H. apply m_answer in H as (p & l & extra & H).
      by apply (IH2 Ha) in H.
  - apply andb_true_iff in Ha as [Ha1 Ha2]. simpl in H.
    destruct (Re.m r1 pos rest cs k) as [x|] eqn:E.
    + injection H as ->. by apply (IH1 Ha1) in E.
    + by apply (IH2 Ha2) in H.
  - simpl in H. apply orb_true_iff in Ha as [Ha|Ha].
    + apply Nat.eqb_eq in Ha as ->.
      apply m_answer in H as (p & l & extra & H).
      exists p, l, ((1, take (p - pos) rest) :: extra ++ cs).
      split; [done|]. unfold has1. simpl. by eexists.
    + apply (IH Ha) in H as (p & l & cs' & H & H1).
      exists p, l, ((n, take (p - pos) rest) :: cs'). split; [done|].
      by apply (has1_more [(n, take (p - pos) rest)]).
Qed.

Lemma match_at_captures (r : Re.regex) (pos : nat) (rest : list ascii)
    (must_advance : bool) (e : nat) (cs : Re.caps) :
  always1 r = true ->
  Re.match_at r pos rest must_advance = Some (e, cs) -> has1 cs.
Proof.
  intros Ha H. unfold Re.match_at in H.
  apply (m_captures r Ha) in H as (p & l & cs' & H & H1).
  destruct (must_advance && (p =? pos)%nat); [discriminate|].
  by injection H as _ <-.
Qed.

Lemma scan_captures (r : Re.regex) (rest : list ascii) (pos last_end : nat) :
  always1 r = true -> Forall has1 (Re.scan r pos rest last_end).
Proof.
  intros Ha. revert pos last_end.
  assert (Hhere : forall pos rest last_end,
            Forall has1 (Re.matches_here r pos rest last_end).1).
  { intros pos rest' last_end. unfold Re.matches_here.
    destruct (pos <? last_end)%nat; [constructor|].
    destruct (Re.match_at r pos rest' false) as [[e c]|] eqn:E1;
      [|constructor].
    pose proof (match_at_captures _ _ _ _ _ _ Ha E1) as H1.
    destruct (e =? pos)%nat; [|by repeat constructor].
    destruct (Re.match_at r pos rest' true) as [[e' c']|] eqn:E2;
      [|by repeat constructor].
    pose proof (match_at_captures _ _ _ _ _ _ Ha E2) as H2.
    by repeat constructor. }
  induction rest as [|c rest IH]; intros pos last_end; simpl.
  - specialize (Hhere pos [] last_end).
    by destruct (Re.matches_here r pos [] last_end).
  - specialize (Hhere pos (c :: rest) last_end).
    destruct (Re.matches_here r pos (c :: rest) last_end) as [found le].
    apply Forall_app. split; [exact Hhere | apply IH].
Qed.

(** With a pattern whose group 1 is on every path, every match of
    [finditer] has a text for the group, and the inner loop of the
    extractor returns. *)
Lemma finditer_texts (c : Re.compiled) (text : string) :
  always1 (Re.prog c) = true -> Re.groups c <> 0 ->
  exists captured,
    re_finditer (Libraries := python_libs) c text = map GroupText captured.
Proof.
  intros Ha Hg. simpl. unfold Re.finditer.
  apply Nat.eqb_neq in Hg. rewrite Hg.
  pose proof (scan_captures (Re.prog c) (chars text) 0 0 Ha) as H.
  induction H as [|cs l [t Ht] _ [captured IH]]; simpl.
  - by exists [].
  - exists (str t :: captured). simpl. rewrite Ht. simpl. by rewrite IH.
Qed.

Lemma default_patterns_compile :
  Forall (fun entry =>
            exists c, Re.compile entry.2 = Re.POk c
                      /\ always1 (Re.prog c) = true /\ Re.groups c <> 0)
         default_patterns.
Proof.
  unfold default_patterns.
  repeat (constructor;
          [eexists; split; [vm_compute; reflexivity|];
           split; [vm_compute; reflexivity | discriminate]|]).
  constructor.
Qed.

Lemma scan_patterns_returns (patterns : list (string * string))
    (content : string) (start : gmap string (list string)) :
  Forall (fun entry =>
            exists c, Re.compile entry.2 = Re.POk c
                      /\ always1 (Re.prog c) = true /\ Re.groups c <> 0)
         patterns ->
  exists fm, scan_patterns (L := python_libs) patterns content start = Ok fm.
Proof.
  intros H. revert start.
  induction H as [|[k v] rest (c & Hc & Ha & Hg) _ IH]; intros start; simpl.
  - by eexists.
  - simpl in Hc. rewrite Hc. simpl.
    destruct (finditer_texts c content Ha Hg) as [captured Hf].
    simpl in Hf. rewrite Hf, collect_texts. simpl. apply IH.
Qed.

(** X16: with the registry the class starts with, the extractor
    returns for every text and never raises: each of the five patterns
    compiles, and its group 1 takes part in every match. *)
Theorem default_patterns_return (content : string) (reports : list report)
    (stored : option summary_t) :
  exists fm,
    extract_key_findings (L := python_libs)
      {| reports := reports; summary := stored;
         findings_patterns := default_patterns |} content
    = Ok fm.
Proof.
  unfold extract_key_findings. simpl findings_patterns.
  destruct (nonempty content); [|by eexists].
  apply scan_patterns_returns, default_patterns_compile.
Qed.
